(** * noisysockets: handshake engine, keypair rotation, configuration kinds
      and the peer directory

    A shallow embedding of
      - [internal/transport/noise-protocol.go] (wire sizes, the four
        handshake routines, [BeginSymmetricSession], [ReceivedWithKeypair]),
      - the [v1alpha1] configuration package ([GetConfigByKind]),
      - the peer directory ([peerDirectory.AddPeer]).

    Conventions.  Bytes are integers in [Z]; a Go byte array or slice is a
    [list Z].  Unsigned 32-bit indices are [Z] values reduced modulo 2^32
    where the code converts to [uint32].  Go maps are [gmap]s.  Pointers to
    peers and keypairs are locations ([nat]) into stores that are part of the
    transport state.  Randomness and clock readings are explicit arguments
    of the operations that consume them. *)

From Stdlib Require Import ZArith List Bool Lia.
From stdpp Require Import base gmap strings list fin_maps functions.

Import ListNotations.

Local Open Scope Z_scope.

(** Go's [(T, error)] results. *)
Inductive result (E A : Type) : Type :=
| Ok (a : A)
| Err (e : E).
Arguments Ok {E A} a.
Arguments Err {E A} e.

Definition bytes := list Z.

(* ===================================================================== *)
(** ** Configuration kinds (package v1alpha1)                             *)
(* ===================================================================== *)

Module Config.

Definition ApiVersion : string := "noisysockets.github.com/v1alpha1".

(** Modelled from the spec: [types.TypeMeta] is declared in package
    [config/types], outside the sources; the spec keys a configuration
    document by (apiVersion, kind). *)
Record TypeMeta := {
  APIVersion : string;
  Kind : string;
}.

Record PeerConfig := {
  pc_Name : string;
  pc_PublicKey : string;
  pc_Endpoint : string;
  pc_IPs : list string;
  DefaultGateway : bool;
}.

Record Config := {
  meta : TypeMeta;
  Name : string;
  ListenPort : Z;
  PrivateKey : string;
  IPs : list string;
  DNSServers : list string;
  Peers : list PeerConfig;
}.

(** Go's zero value, the [&Config{}] of [GetConfigByKind]. *)
Definition zeroConfig : Config :=
  {| meta := {| APIVersion := ""; Kind := "" |};
     Name := ""; ListenPort := 0; PrivateKey := "";
     IPs := []; DNSServers := []; Peers := [] |}.

(** Modelled from the spec: the [types.Config] interface is declared in
    package [config/types], outside the sources; its methods are the two
    that [Config] implements here, the (apiVersion, kind) tag of the spec. *)
Class ConfigKind (C : Type) := {
  GetKind : C -> string;
  GetAPIVersion : C -> string;
}.

#[global] Instance Config_kind : ConfigKind Config := {
  GetKind := fun _ => "Config";
  GetAPIVersion := fun _ => ApiVersion;
}.

Inductive error :=
| unsupported_kind (kind : string).

(** [fmt.Errorf("unsupported kind: %s", kind)] *)
Definition error_message (e : error) : string :=
  match e with
  | unsupported_kind kind => "unsupported kind: " +:+ kind
  end.

Definition GetConfigByKind (kind : string) : result error Config :=
  if String.eqb kind "Config" then Ok zeroConfig
  else Err (unsupported_kind kind).

End Config.

(* ===================================================================== *)
(** ** The peer directory                                                 *)
(* ===================================================================== *)

Module PeerDirectory.

Section Directory.

(** [netip.Addr] is a comparable value type; the directory only uses it as
    a map key. *)
Context {Addr : Type} `{Countable Addr}.

(** Modelled from the spec: [types.NoisePublicKey] is declared outside
    the sources; the spec gives a static public key 32 bytes. *)
Definition NoisePublicKey := bytes.

Record peerDirectory := {
  peerNames : gmap string NoisePublicKey;
  peerAddresses : gmap NoisePublicKey (list Addr);
  fromPeerAddress : gmap Addr NoisePublicKey;
}.

Definition newPeerDirectory : peerDirectory :=
  {| peerNames := ∅; peerAddresses := ∅; fromPeerAddress := ∅ |}.

Inductive error :=
| address_in_use (addr : Addr).

(** The [for _, addr := range addrs] loop of [AddPeer], run on the
    address table: it stops at the first address that is already a key. *)
Fixpoint register_addrs (publicKey : NoisePublicKey) (addrs : list Addr)
    (tbl : gmap Addr NoisePublicKey)
    : option error * gmap Addr NoisePublicKey :=
  match addrs with
  | [] => (None, tbl)
  | addr :: rest =>
      match tbl !! addr with
      | Some _ => (Some (address_in_use addr), tbl)
      | None => register_addrs publicKey rest (<[addr := publicKey]> tbl)
      end
  end.

(** The address table once the loop has registered all of [pre]. *)
Definition registered (publicKey : NoisePublicKey) (pre : list Addr)
    (tbl : gmap Addr NoisePublicKey) : gmap Addr NoisePublicKey :=
  foldl (fun t a => <[a := publicKey]> t) tbl pre.

Definition AddPeer (pd : peerDirectory) (name : string)
    (publicKey : NoisePublicKey) (addrs : list Addr)
    : option error * peerDirectory :=
  let names :=
    if decide (name = "") then peerNames pd
    else <[name := publicKey]> (peerNames pd) in
  let addresses := <[publicKey := addrs]> (peerAddresses pd) in
  let '(err, tbl) := register_addrs publicKey addrs (fromPeerAddress pd) in
  (err, {| peerNames := names; peerAddresses := addresses;
           fromPeerAddress := tbl |}).

Definition LookupPeerAddressesByName (pd : peerDirectory) (name : string)
    : option (list Addr) :=
  match peerNames pd !! name with
  | None => None
  | Some publicKey => peerAddresses pd !! publicKey
  end.

Definition LookupPeerByAddress (pd : peerDirectory) (addr : Addr)
    : option NoisePublicKey :=
  fromPeerAddress pd !! addr.

(** A run of [AddPeer] calls, each given as (name, key, addresses); the
    caller may ignore the errors, so the directory after the run is what
    the calls left, failed ones included. *)
Definition AddPeers (pd : peerDirectory)
    (calls : list (string * NoisePublicKey * list Addr)) : peerDirectory :=
  foldl (fun pd c => snd (AddPeer pd (fst (fst c)) (snd (fst c)) (snd c)))
    pd calls.

End Directory.

Arguments peerDirectory Addr {_ _}.

End PeerDirectory.

(* ===================================================================== *)
(** ** Wire layout (noise-protocol.go, constants and message structs)     *)
(* ===================================================================== *)

Module Wire.

(** Sizes fixed by the libraries the file imports. *)
Definition poly1305_TagSize : Z := 16.
Definition blake2s_Size : Z := 32.
Definition blake2s_Size128 : Z := 16.
Definition chacha20poly1305_KeySize : Z := 32.
Definition chacha20poly1305_NonceSize : Z := 12.
Definition chacha20poly1305_NonceSizeX : Z := 24.
(** Modelled from the spec: [types.NoisePublicKeySize] is declared outside
    the sources; the spec gives a Curve25519 key 32 bytes. *)
Definition NoisePublicKeySize : Z := 32.
(** Modelled from the spec: [tai64n.TimestampSize] is declared outside the
    sources; the spec gives a TAI64N label 12 bytes. *)
Definition TimestampSize : Z := 12.

Definition MessageInitiationType : Z := 1.
Definition MessageResponseType : Z := 2.
Definition MessageCookieReplyType : Z := 3.
Definition MessageTransportType : Z := 4.

Definition MessageInitiationSize : Z := 148.
Definition MessageResponseSize : Z := 92.
Definition MessageCookieReplySize : Z := 64.
Definition MessageTransportHeaderSize : Z := 16.
Definition MessageTransportSize : Z :=
  MessageTransportHeaderSize + poly1305_TagSize.
Definition MessageKeepaliveSize : Z := MessageTransportSize.
Definition MessageHandshakeSize : Z := MessageInitiationSize.

Definition MessageTransportOffsetReceiver : Z := 4.
Definition MessageTransportOffsetCounter : Z := 8.
Definition MessageTransportOffsetContent : Z := 16.

(** The Go types of the message fields.  A slice has no fixed extent: it
    is what follows the fixed part of the message. *)
Inductive field_type :=
| uint32
| uint64
| byte_array (n : Z)
| byte_slice.

Definition sizeof (t : field_type) : Z :=
  match t with
  | uint32 => 4
  | uint64 => 8
  | byte_array n => n
  | byte_slice => 0
  end.

Definition layout := list (string * field_type).

(** The message structs, field by field in declaration order. *)
Definition MessageInitiation : layout :=
  [ ("Type", uint32);
    ("Sender", uint32);
    ("Ephemeral", byte_array NoisePublicKeySize);
    ("Static", byte_array (NoisePublicKeySize + poly1305_TagSize));
    ("Timestamp", byte_array (TimestampSize + poly1305_TagSize));
    ("MAC1", byte_array blake2s_Size128);
    ("MAC2", byte_array blake2s_Size128) ]%string.

Definition MessageResponse : layout :=
  [ ("Type", uint32);
    ("Sender", uint32);
    ("Receiver", uint32);
    ("Ephemeral", byte_array NoisePublicKeySize);
    ("Empty", byte_array poly1305_TagSize);
    ("MAC1", byte_array blake2s_Size128);
    ("MAC2", byte_array blake2s_Size128) ]%string.

Definition MessageTransport : layout :=
  [ ("Type", uint32);
    ("Receiver", uint32);
    ("Counter", uint64);
    ("Content", byte_slice) ]%string.

Definition MessageCookieReply : layout :=
  [ ("Type", uint32);
    ("Receiver", uint32);
    ("Nonce", byte_array chacha20poly1305_NonceSizeX);
    ("Cookie", byte_array (blake2s_Size128 + poly1305_TagSize)) ]%string.

(** Packed size of the fixed part (little-endian marshalling adds no
    padding). *)
Definition packed_size (l : layout) : Z :=
  fold_right (fun f acc => sizeof (snd f) + acc) 0 l.

(** Byte offset of a field in the packed encoding. *)
Fixpoint offset_of (name : string) (l : layout) : option Z :=
  match l with
  | [] => None
  | (n, t) :: rest =>
      if String.eqb n name then Some 0
      else option_map (Z.add (sizeof t)) (offset_of name rest)
  end.

(** A transport message on the wire: the header, then the sealed content
    (ciphertext and tag). *)
Definition transport_wire_size (content : bytes) : Z :=
  MessageTransportOffsetContent + Z.of_nat (length content).

End Wire.

(* ===================================================================== *)
(** ** The Noise handshake engine and keypair rotation                    *)
(* ===================================================================== *)

Module Noise.

Import Wire.

Inductive handshakeState :=
| handshakeZeroed
| handshakeInitiationCreated
| handshakeInitiationConsumed
| handshakeResponseCreated
| handshakeResponseConsumed.

#[global] Instance handshakeState_eq_dec : EqDecision handshakeState.
Proof. solve_decision. Defined.

Definition handshakeState_String (hs : handshakeState) : string :=
  match hs with
  | handshakeZeroed => "handshakeZeroed"
  | handshakeInitiationCreated => "handshakeInitiationCreated"
  | handshakeInitiationConsumed => "handshakeInitiationConsumed"
  | handshakeResponseCreated => "handshakeResponseCreated"
  | handshakeResponseConsumed => "handshakeResponseConsumed"
  end.

Definition NoiseConstruction : string := "Noise_IKpsk2_25519_ChaChaPoly_BLAKE2s".
Definition NoiseIdentifier : string := "WireGuard v1 zx2c4 Jason@zx2c4.com".
Definition NoiseLabelMAC1 : string := "mac1----".
Definition NoiseLabelCookie : string := "cookie--".

(** [[]byte(s)] *)
Definition string_bytes (s : string) : bytes :=
  map (fun a => Z.of_N (Ascii.N_of_ascii a)) (String.list_ascii_of_string s).

(** The errors the routines return.  [errInvalidPublicKey] is a value
    declared outside the sources and used by name here. *)
Inductive error :=
| errInvalidPublicKey
| errInitiationNotConsumed
    (* "handshake initiation must be consumed first" *)
| errInvalidState (st : handshakeState)
    (* "invalid state for keypair derivation: %v" *)
| errExternal (msg : string)
    (* an error handed up by the random source *).

(** *** Messages *)

Record MessageInitiation := {
  mi_Type : Z;
  mi_Sender : Z;
  mi_Ephemeral : bytes;
  mi_Static : bytes;
  mi_Timestamp : bytes;
  mi_MAC1 : bytes;
  mi_MAC2 : bytes;
}.

Record MessageResponse := {
  mr_Type : Z;
  mr_Sender : Z;
  mr_Receiver : Z;
  mr_Ephemeral : bytes;
  mr_Empty : bytes;
  mr_MAC1 : bytes;
  mr_MAC2 : bytes;
}.

(** *** Time

    A [time.Time] is a count of nanoseconds; a [time.Duration] is a signed
    64-bit count, and [Time.Sub] saturates at its bounds. *)

Definition minDuration : Z := - 2 ^ 63.
Definition maxDuration : Z := 2 ^ 63 - 1.

Definition Time_Sub (t u : Z) : Z :=
  let d := t - u in
  if d <? minDuration then minDuration
  else if maxDuration <? d then maxDuration
  else d.

(** [time.Since(t)], at clock reading [now]. *)
Definition Since (now t : Z) : Z := Time_Sub now t.

(** [Time.After] *)
Definition Time_After (t u : Z) : bool := u <? t.

(** *** TAI64N labels *)

(** Modelled from the spec: package [internal/tai64n] is not part of the
    sources.  The spec gives a TAI64N label as a 12-byte timestamp and
    compares labels with [<=]; the label is big-endian (seconds, then
    nanoseconds), so that order is the lexicographic order of the bytes,
    which is what [bytes_compare] computes. *)
Fixpoint bytes_compare (a b : bytes) : comparison :=
  match a, b with
  | [], [] => Eq
  | [], _ :: _ => Lt
  | _ :: _, [] => Gt
  | x :: a', y :: b' =>
      match x ?= y with
      | Eq => bytes_compare a' b'
      | c => c
      end
  end.

(** Modelled from the spec: [Timestamp.After] of package [internal/tai64n],
    which is not part of the sources; the spec's "decrypted TAI64N <=
    lastTimestamp" is the negation of [After]. *)
Definition Timestamp_After (t1 t2 : bytes) : bool :=
  match bytes_compare t1 t2 with Gt => true | _ => false end.

(** *** Helpers on byte slices *)

(** Modelled from the spec: [isZero] lives in a helper file that is not
    part of the sources; the spec speaks of a secret that "is all-zero". *)
Definition isZero (val : bytes) : bool := forallb (Z.eqb 0) val.

(** Modelled from the spec: [setZero] lives in a helper file that is not
    part of the sources; the spec speaks of keys that are "zeroed". *)
Definition setZero (arr : bytes) : bytes := map (fun _ => 0) arr.

Definition ZeroNonce : bytes := repeat 0 (Z.to_nat chacha20poly1305_NonceSize).

(** *** State *)

Record Handshake := {
  state : handshakeState;
  hash : bytes;
  chainKey : bytes;
  presharedKey : bytes;
  localEphemeral : bytes;
  localIndex : Z;
  remoteIndex : Z;
  remoteStatic : bytes;
  remoteEphemeral : bytes;
  precomputedStaticStatic : bytes;
  lastTimestamp : bytes;
  lastInitiationConsumption : Z;
  lastSentHandshake : Z;
}.

Definition set_state (v : handshakeState) (h : Handshake) : Handshake :=
  {| state := v; hash := hash h; chainKey := chainKey h;
     presharedKey := presharedKey h; localEphemeral := localEphemeral h;
     localIndex := localIndex h; remoteIndex := remoteIndex h;
     remoteStatic := remoteStatic h; remoteEphemeral := remoteEphemeral h;
     precomputedStaticStatic := precomputedStaticStatic h;
     lastTimestamp := lastTimestamp h;
     lastInitiationConsumption := lastInitiationConsumption h;
     lastSentHandshake := lastSentHandshake h |}.

Definition set_hash (v : bytes) (h : Handshake) : Handshake :=
  {| state := state h; hash := v; chainKey := chainKey h;
     presharedKey := presharedKey h; localEphemeral := localEphemeral h;
     localIndex := localIndex h; remoteIndex := remoteIndex h;
     remoteStatic := remoteStatic h; remoteEphemeral := remoteEphemeral h;
     precomputedStaticStatic := precomputedStaticStatic h;
     lastTimestamp := lastTimestamp h;
     lastInitiationConsumption := lastInitiationConsumption h;
     lastSentHandshake := lastSentHandshake h |}.

Definition set_chainKey (v : bytes) (h : Handshake) : Handshake :=
  {| state := state h; hash := hash h; chainKey := v;
     presharedKey := presharedKey h; localEphemeral := localEphemeral h;
     localIndex := localIndex h; remoteIndex := remoteIndex h;
     remoteStatic := remoteStatic h; remoteEphemeral := remoteEphemeral h;
     precomputedStaticStatic := precomputedStaticStatic h;
     lastTimestamp := lastTimestamp h;
     lastInitiationConsumption := lastInitiationConsumption h;
     lastSentHandshake := lastSentHandshake h |}.

Definition set_localEphemeral (v : bytes) (h : Handshake) : Handshake :=
  {| state := state h; hash := hash h; chainKey := chainKey h;
     presharedKey := presharedKey h; localEphemeral := v;
     localIndex := localIndex h; remoteIndex := remoteIndex h;
     remoteStatic := remoteStatic h; remoteEphemeral := remoteEphemeral h;
     precomputedStaticStatic := precomputedStaticStatic h;
     lastTimestamp := lastTimestamp h;
     lastInitiationConsumption := lastInitiationConsumption h;
     lastSentHandshake := lastSentHandshake h |}.

Definition set_localIndex (v : Z) (h : Handshake) : Handshake :=
  {| state := state h; hash := hash h; chainKey := chainKey h;
     presharedKey := presharedKey h; localEphemeral := localEphemeral h;
     localIndex := v; remoteIndex := remoteIndex h;
     remoteStatic := remoteStatic h; remoteEphemeral := remoteEphemeral h;
     precomputedStaticStatic := precomputedStaticStatic h;
     lastTimestamp := lastTimestamp h;
     lastInitiationConsumption := lastInitiationConsumption h;
     lastSentHandshake := lastSentHandshake h |}.

Definition set_remoteIndex (v : Z) (h : Handshake) : Handshake :=
  {| state := state h; hash := hash h; chainKey := chainKey h;
     presharedKey := presharedKey h; localEphemeral := localEphemeral h;
     localIndex := localIndex h; remoteIndex := v;
     remoteStatic := remoteStatic h; remoteEphemeral := remoteEphemeral h;
     precomputedStaticStatic := precomputedStaticStatic h;
     lastTimestamp := lastTimestamp h;
     lastInitiationConsumption := lastInitiationConsumption h;
     lastSentHandshake := lastSentHandshake h |}.

Definition set_remoteEphemeral (v : bytes) (h : Handshake) : Handshake :=
  {| state := state h; hash := hash h; chainKey := chainKey h;
     presharedKey := presharedKey h; localEphemeral := localEphemeral h;
     localIndex := localIndex h; remoteIndex := remoteIndex h;
     remoteStatic := remoteStatic h; remoteEphemeral := v;
     precomputedStaticStatic := precomputedStaticStatic h;
     lastTimestamp := lastTimestamp h;
     lastInitiationConsumption := lastInitiationConsumption h;
     lastSentHandshake := lastSentHandshake h |}.

Definition set_lastTimestamp (v : bytes) (h : Handshake) : Handshake :=
  {| state := state h; hash := hash h; chainKey := chainKey h;
     presharedKey := presharedKey h; localEphemeral := localEphemeral h;
     localIndex := localIndex h; remoteIndex := remoteIndex h;
     remoteStatic := remoteStatic h; remoteEphemeral := remoteEphemeral h;
     precomputedStaticStatic := precomputedStaticStatic h;
     lastTimestamp := v;
     lastInitiationConsumption := lastInitiationConsumption h;
     lastSentHandshake := lastSentHandshake h |}.

Definition set_lastInitiationConsumption (v : Z) (h : Handshake) : Handshake :=
  {| state := state h; hash := hash h; chainKey := chainKey h;
     presharedKey := presharedKey h; localEphemeral := localEphemeral h;
     localIndex := localIndex h; remoteIndex := remoteIndex h;
     remoteStatic := remoteStatic h; remoteEphemeral := remoteEphemeral h;
     precomputedStaticStatic := precomputedStaticStatic h;
     lastTimestamp := lastTimestamp h;
     lastInitiationConsumption := v;
     lastSentHandshake := lastSentHandshake h |}.

(** Pointers: a [*Peer] and a [*Keypair] are locations; [nil] is [None].
    A [*Handshake] always points at the handshake embedded in a peer and
    is that peer's location. *)
Definition ploc := nat.
Definition kloc := nat.

(** Modelled from the spec: the replay filter is declared outside the
    sources; the spec gives it a 1024-entry window and a highest accepted
    counter, and [Reset] empties it.  The window is kept as the list of the
    counters marked in it. *)
Record ReplayFilter := {
  rf_last : Z;
  rf_ring : list Z;
}.

(** Modelled from the spec: [Reset] of the replay filter, declared
    outside the sources; the spec calls it whenever a new keypair is
    installed, to start from an empty window. *)
Definition ReplayFilter_Reset (f : ReplayFilter) : ReplayFilter :=
  {| rf_last := 0; rf_ring := [] |}.

(** Modelled from the spec: the [Keypair] struct is declared outside the
    sources; the fields are those the spec lists and
    [BeginSymmetricSession] assigns.  An AEAD instance is represented by
    its key. *)
Record Keypair := {
  sendNonce : Z;
  send : bytes;
  receive : bytes;
  replayFilter : ReplayFilter;
  isInitiator : bool;
  created : Z;
  kp_localIndex : Z;
  kp_remoteIndex : Z;
}.

(** [new(Keypair)] *)
Definition zeroKeypair : Keypair :=
  {| sendNonce := 0; send := []; receive := [];
     replayFilter := {| rf_last := 0; rf_ring := [] |};
     isInitiator := false; created := 0;
     kp_localIndex := 0; kp_remoteIndex := 0 |}.

(** Modelled from the spec: the [Keypairs] struct is declared outside the
    sources; the spec gives a peer three slots, previous, current and
    next.  Its lock is left out. *)
Record Keypairs := {
  current : option kloc;
  previous : option kloc;
  next : option kloc;
}.

(** Modelled from the spec: the [Peer] struct is declared outside the
    sources; of the attributes the spec lists, these are the ones the
    routines below read or write. *)
Record Peer := {
  isRunning : bool;
  handshake : Handshake;
  keypairs : Keypairs;
}.

Definition set_handshake (h : Handshake) (p : Peer) : Peer :=
  {| isRunning := isRunning p; handshake := h; keypairs := keypairs p |}.

Definition set_keypairs (k : Keypairs) (p : Peer) : Peer :=
  {| isRunning := isRunning p; handshake := handshake p; keypairs := k |}.

(** Modelled from the spec: the index table is declared outside the
    sources.  The spec: a map from a 32-bit index to either (peer,
    handshake) or (peer, keypair). *)
Record IndexTableEntry := {
  entry_peer : option ploc;
  entry_handshake : option ploc;
  entry_keypair : option kloc;
}.

(** The zero value of an entry, which a Go map yields for a missing key. *)
Definition zeroEntry : IndexTableEntry :=
  {| entry_peer := None; entry_handshake := None; entry_keypair := None |}.

(** Modelled from the spec: [transport.staticIdentity] is declared outside
    the sources; the spec: the local long-term private key and its public
    key.  Its lock is left out. *)
Record StaticIdentity := {
  privateKey : bytes;
  publicKey : bytes;
}.

(** Modelled from the spec: the [Transport] struct is declared outside the
    sources; it holds the static identity, the peers by public key and the
    index table.  The two stores and the allocation mark stand for the
    memory that [*Peer] and [*Keypair] point into. *)
Record Transport := {
  staticIdentity : StaticIdentity;
  keyMap : gmap bytes ploc;          (* peers by static public key *)
  peerAt : ploc -> Peer;             (* the peers the pointers lead to *)
  keypairAt : kloc -> Keypair;       (* the keypairs the pointers lead to *)
  keypairFree : kloc;                (* where [new(Keypair)] allocates next *)
  indexTable : gmap Z IndexTableEntry;
}.

Definition set_peerAt (f : ploc -> Peer) (tr : Transport) : Transport :=
  {| staticIdentity := staticIdentity tr; keyMap := keyMap tr;
     peerAt := f; keypairAt := keypairAt tr;
     keypairFree := keypairFree tr; indexTable := indexTable tr |}.

Definition set_keypairAt (f : kloc -> Keypair) (tr : Transport) : Transport :=
  {| staticIdentity := staticIdentity tr; keyMap := keyMap tr;
     peerAt := peerAt tr; keypairAt := f;
     keypairFree := keypairFree tr; indexTable := indexTable tr |}.

Definition set_keypairFree (k : kloc) (tr : Transport) : Transport :=
  {| staticIdentity := staticIdentity tr; keyMap := keyMap tr;
     peerAt := peerAt tr; keypairAt := keypairAt tr;
     keypairFree := k; indexTable := indexTable tr |}.

Definition set_indexTable (t : gmap Z IndexTableEntry) (tr : Transport)
    : Transport :=
  {| staticIdentity := staticIdentity tr; keyMap := keyMap tr;
     peerAt := peerAt tr; keypairAt := keypairAt tr;
     keypairFree := keypairFree tr; indexTable := t |}.

(** [peer.handshake] read and written through the peer pointer. *)
Definition handshakeOf (tr : Transport) (p : ploc) : Handshake :=
  handshake (peerAt tr p).

Definition update_handshake (p : ploc) (f : Handshake -> Handshake)
    (tr : Transport) : Transport :=
  set_peerAt (<[p := set_handshake (f (handshakeOf tr p)) (peerAt tr p)]>
                (peerAt tr)) tr.

Definition keypairsOf (tr : Transport) (p : ploc) : Keypairs :=
  keypairs (peerAt tr p).

Definition update_keypairs (p : ploc) (k : Keypairs) (tr : Transport)
    : Transport :=
  set_peerAt (<[p := set_keypairs k (peerAt tr p)]> (peerAt tr)) tr.

(** Modelled from the spec: [LookupPeer] is declared outside the sources;
    the spec: peer lookup by static public key. *)
Definition LookupPeer (tr : Transport) (pk : bytes) : option ploc :=
  keyMap tr !! pk.

(** *** The index table *)

(** Conversion to [uint32]. *)
Definition to_uint32 (z : Z) : Z := z mod 2 ^ 32.

(** Modelled from the spec: [IndexTable.Delete] is declared outside the
    sources; the spec: [Delete(idx)] is idempotent. *)
Definition IndexTable_Delete (index : Z) (t : gmap Z IndexTableEntry)
    : gmap Z IndexTableEntry :=
  delete index t.

(** Modelled from the spec: [IndexTable.Lookup] is declared outside the
    sources; the spec: [Lookup(idx)] reads the binding, which is a
    handshake, a keypair or nothing. *)
Definition IndexTable_Lookup (id : Z) (t : gmap Z IndexTableEntry)
    : IndexTableEntry :=
  default zeroEntry (t !! id).

(** Modelled from the spec: [IndexTable.SwapIndexForKeypair] is declared
    outside the sources; the spec: it replaces the handshake binding of
    the index by the keypair.  An index without a binding has nothing to
    replace. *)
Definition IndexTable_SwapIndexForKeypair (index : Z) (keypair : kloc)
    (t : gmap Z IndexTableEntry) : gmap Z IndexTableEntry :=
  match t !! index with
  | None => t
  | Some e =>
      <[index := {| entry_peer := entry_peer e;
                    entry_handshake := None;
                    entry_keypair := Some keypair |}]> t
  end.

(** Modelled from the spec: [IndexTable.NewIndexForHandshake] is declared
    outside the sources; the spec: it draws a random 32-bit value and
    retries on collision.  The random source is the list [draws] of its
    successive outputs; a source that gives out is the error the callers
    check for, returned with index 0. *)
Fixpoint IndexTable_NewIndexForHandshake (peer hs : ploc) (draws : list Z)
    (t : gmap Z IndexTableEntry)
    : (Z * option error) * gmap Z IndexTableEntry :=
  match draws with
  | [] => ((0, Some (errExternal "random source failed")), t)
  | r :: rest =>
      let index := to_uint32 r in
      match t !! index with
      | Some _ => IndexTable_NewIndexForHandshake peer hs rest t
      | None =>
          ((index, None),
           <[index := {| entry_peer := Some peer;
                         entry_handshake := Some hs;
                         entry_keypair := None |}]> t)
      end
  end.

(** Modelled from the spec: the zeroing half of [DeleteKeypair], which is
    declared outside the sources; the spec: a keypair is deleted by
    revoking its index and zeroing its AEAD keys. *)
Definition zeroKeys (kp : Keypair) : Keypair :=
  {| sendNonce := sendNonce kp; send := setZero (send kp);
     receive := setZero (receive kp); replayFilter := replayFilter kp;
     isInitiator := isInitiator kp; created := created kp;
     kp_localIndex := kp_localIndex kp; kp_remoteIndex := kp_remoteIndex kp |}.

(** Modelled from the spec: [DeleteKeypair] is declared outside the
    sources.  The spec: a keypair is deleted by revoking its index and
    zeroing its AEAD keys; there is nothing to delete in [nil]. *)
Definition DeleteKeypair (key : option kloc) (tr : Transport) : Transport :=
  match key with
  | None => tr
  | Some k =>
      let kp := keypairAt tr k in
      set_keypairAt (<[k := zeroKeys kp]> (keypairAt tr))
        (set_indexTable
           (IndexTable_Delete (kp_localIndex kp) (indexTable tr)) tr)
  end.

(** What it is for a keypair to have been deleted, read off the state. *)
Definition keypair_deleted (tr : Transport) (k : kloc) : Prop :=
  indexTable tr !! kp_localIndex (keypairAt tr k) = None
  /\ isZero (send (keypairAt tr k)) = true
  /\ isZero (receive (keypairAt tr k)) = true.

(** What a routine that works on one peer's handshake and on the index
    table leaves alone: the static identity, the peers by key, the
    keypairs, and of every peer the running flag and the slots; of every
    other peer also the handshake. *)
Definition handshake_frame (peer : ploc) (tr tr' : Transport) : Prop :=
  staticIdentity tr' = staticIdentity tr
  /\ keyMap tr' = keyMap tr
  /\ keypairAt tr' = keypairAt tr
  /\ keypairFree tr' = keypairFree tr
  /\ (forall q, isRunning (peerAt tr' q) = isRunning (peerAt tr q))
  /\ (forall q, keypairsOf tr' q = keypairsOf tr q)
  /\ (forall q, q <> peer -> handshakeOf tr' q = handshakeOf tr q).

(** *** Messages on the wire

    The number of bytes a message value takes when it is marshalled field
    by field: two or three 32-bit words, then the byte arrays. *)

Definition MessageInitiation_size (msg : MessageInitiation) : Z :=
  4 + 4 + Z.of_nat (length (mi_Ephemeral msg))
  + Z.of_nat (length (mi_Static msg))
  + Z.of_nat (length (mi_Timestamp msg))
  + Z.of_nat (length (mi_MAC1 msg)) + Z.of_nat (length (mi_MAC2 msg)).

Definition MessageResponse_size (msg : MessageResponse) : Z :=
  4 + 4 + 4 + Z.of_nat (length (mr_Ephemeral msg))
  + Z.of_nat (length (mr_Empty msg))
  + Z.of_nat (length (mr_MAC1 msg)) + Z.of_nat (length (mr_MAC2 msg)).

(** *** Cryptographic primitives

    BLAKE2s, the HKDF steps [KDF1]..[KDF3], Curve25519 and
    ChaCha20-Poly1305 come from libraries and a helper file; the engine is
    stated over any implementation of them. *)

Class Primitives := {
  blake2s_Sum256 : bytes -> bytes;
  KDF1 : bytes -> bytes -> bytes;
  KDF2 : bytes -> bytes -> bytes * bytes;
  KDF3 : bytes -> bytes -> bytes * bytes * bytes;
  sharedSecret : bytes -> bytes -> result error bytes;
  PublicKey : bytes -> bytes;
  Seal : bytes -> bytes -> bytes -> bytes -> bytes;
    (* key, nonce, plaintext, additional data *)
  Open : bytes -> bytes -> bytes -> bytes -> option bytes;
    (* key, nonce, ciphertext, additional data *)
}.

(** *** A state-and-error monad for the routines that mutate the handshake
    step by step: an early [return nil, err] keeps the mutations made so
    far. *)

Definition M (A : Type) : Type := Transport -> result error A * Transport.

#[global] Instance M_ret : MRet M := fun A a tr => (Ok a, tr).

#[global] Instance M_bind : MBind M := fun A B f m tr =>
  match m tr with
  | (Ok a, tr') => f a tr'
  | (Err e, tr') => (Err e, tr')
  end.

Definition fail {A} (e : error) : M A := fun tr => (Err e, tr).

Definition gets {A} (f : Transport -> A) : M A := fun tr => (Ok (f tr), tr).

Definition modify (f : Transport -> Transport) : M unit :=
  fun tr => (Ok tt, f tr).

(** [if err != nil { return nil, err }] *)
Definition check (err : option error) : M unit :=
  match err with
  | Some e => fail e
  | None => mret tt
  end.

Definition try {A} (r : result error A) : M A := fun tr => (r, tr).

Section Engine.

Context {prim : Primitives}.

(** [HandshakeInitationRate], a constant declared outside the sources, in
    nanoseconds. *)
Variable HandshakeInitationRate : Z.

Definition mixKey (c data : bytes) : bytes := KDF1 c data.

Definition mixHash (h data : bytes) : bytes := blake2s_Sum256 (h ++ data).

(** [init] *)
Definition InitialChainKey : bytes :=
  blake2s_Sum256 (string_bytes NoiseConstruction).
Definition InitialHash : bytes :=
  mixHash InitialChainKey (string_bytes NoiseIdentifier).

Definition Handshake_mixHash (data : bytes) (h : Handshake) : Handshake :=
  set_hash (mixHash (hash h) data) h.

Definition Handshake_mixKey (data : bytes) (h : Handshake) : Handshake :=
  set_chainKey (mixKey (chainKey h) data) h.

Definition Handshake_Clear (h : Handshake) : Handshake :=
  set_state handshakeZeroed
    (set_localIndex 0
       (set_hash (setZero (hash h))
          (set_chainKey (setZero (chainKey h))
             (set_remoteEphemeral (setZero (remoteEphemeral h))
                (set_localEphemeral (setZero (localEphemeral h)) h))))).

Definition getH (peer : ploc) : M Handshake :=
  gets (fun tr => handshakeOf tr peer).

Definition modifyH (peer : ploc) (f : Handshake -> Handshake) : M unit :=
  modify (update_handshake peer f).

Definition zeroMAC : bytes := repeat 0 (Z.to_nat blake2s_Size128).

(** [CreateMessageInitiation].  [newKey] is what [types.NewPrivateKey()]
    returns, [now] what [tai64n.Now()] returns, [draws] the random source
    of the index table. *)
Definition CreateMessageInitiation (peer : ploc)
    (newKey : bytes * option error) (now : bytes) (draws : list Z)
    : M MessageInitiation :=
  modifyH peer (set_hash InitialHash);;
  modifyH peer (set_chainKey InitialChainKey);;
  modifyH peer (set_localEphemeral (fst newKey));;
  check (snd newKey);;
  h ← getH peer;
  modifyH peer (Handshake_mixHash (remoteStatic h));;
  let Ephemeral := PublicKey (localEphemeral h) in
  modifyH peer (Handshake_mixKey Ephemeral);;
  modifyH peer (Handshake_mixHash Ephemeral);;
  (* encrypt static key *)
  ss ← try (sharedSecret (localEphemeral h) (remoteStatic h));
  h ← getH peer;
  let '(c, key) := KDF2 (chainKey h) ss in
  modifyH peer (set_chainKey c);;
  si ← gets staticIdentity;
  let Static := Seal key ZeroNonce (publicKey si) (hash h) in
  modifyH peer (Handshake_mixHash Static);;
  (* encrypt timestamp *)
  h ← getH peer;
  if isZero (precomputedStaticStatic h) then fail errInvalidPublicKey else
  let '(c, key) := KDF2 (chainKey h) (precomputedStaticStatic h) in
  modifyH peer (set_chainKey c);;
  let Timestamp := Seal key ZeroNonce now (hash h) in
  (* assign index *)
  modify (fun tr =>
    set_indexTable (IndexTable_Delete (localIndex h) (indexTable tr)) tr);;
  r ← gets (fun tr =>
    IndexTable_NewIndexForHandshake peer peer draws (indexTable tr));
  modify (set_indexTable (snd r));;
  let Sender := fst (fst r) in
  check (snd (fst r));;
  modifyH peer (set_localIndex Sender);;
  modifyH peer (Handshake_mixHash Timestamp);;
  modifyH peer (set_state handshakeInitiationCreated);;
  mret {| mi_Type := MessageInitiationType; mi_Sender := Sender;
          mi_Ephemeral := Ephemeral; mi_Static := Static;
          mi_Timestamp := Timestamp;
          mi_MAC1 := zeroMAC; mi_MAC2 := zeroMAC |}.

(** [ConsumeMessageInitiation].  [clock] is the clock reading inside
    [time.Since], [now] the later [time.Now()] of the commit. *)
Definition ConsumeMessageInitiation (msg : MessageInitiation)
    (clock now : Z) (tr : Transport) : option ploc * Transport :=
  if negb (mi_Type msg =? MessageInitiationType) then (None, tr) else
  let si := staticIdentity tr in
  let hash0 := mixHash InitialHash (publicKey si) in
  let hash1 := mixHash hash0 (mi_Ephemeral msg) in
  let chainKey0 := mixKey InitialChainKey (mi_Ephemeral msg) in
  (* decrypt static key *)
  match sharedSecret (privateKey si) (mi_Ephemeral msg) with
  | Err _ => (None, tr)
  | Ok ss =>
  let '(chainKey1, key) := KDF2 chainKey0 ss in
  match Open key ZeroNonce (mi_Static msg) hash1 with
  | None => (None, tr)
  | Some peerPK =>
  let hash2 := mixHash hash1 (mi_Static msg) in
  (* lookup peer *)
  match LookupPeer tr peerPK with
  | None => (None, tr)
  | Some peer =>
  if negb (isRunning (peerAt tr peer)) then (None, tr) else
  let handshake := handshakeOf tr peer in
  (* verify identity *)
  if isZero (precomputedStaticStatic handshake) then (None, tr) else
  let '(chainKey2, key) :=
    KDF2 chainKey1 (precomputedStaticStatic handshake) in
  match Open key ZeroNonce (mi_Timestamp msg) hash2 with
  | None => (None, tr)
  | Some timestamp =>
  let hash3 := mixHash hash2 (mi_Timestamp msg) in
  (* protect against replay & flood *)
  let replay := negb (Timestamp_After timestamp (lastTimestamp handshake)) in
  let flood :=
    Since clock (lastInitiationConsumption handshake)
      <=? HandshakeInitationRate in
  if replay then (None, tr) else
  if flood then (None, tr) else
  (* update handshake state *)
  let commit (h : Handshake) : Handshake :=
    let h := set_hash hash3 h in
    let h := set_chainKey chainKey2 h in
    let h := set_remoteIndex (mi_Sender msg) h in
    let h := set_remoteEphemeral (mi_Ephemeral msg) h in
    let h :=
      if Timestamp_After timestamp (lastTimestamp h)
      then set_lastTimestamp timestamp h else h in
    let h :=
      if Time_After now (lastInitiationConsumption h)
      then set_lastInitiationConsumption now h else h in
    set_state handshakeInitiationConsumed h in
  (Some peer, update_handshake peer commit tr)
  end end end end.

(** [CreateMessageResponse] *)
Definition CreateMessageResponse (peer : ploc)
    (newKey : bytes * option error) (draws : list Z)
    : M MessageResponse :=
  h ← getH peer;
  if negb (bool_decide (state h = handshakeInitiationConsumed))
  then fail errInitiationNotConsumed else
  (* assign index *)
  modify (fun tr =>
    set_indexTable (IndexTable_Delete (localIndex h) (indexTable tr)) tr);;
  r ← gets (fun tr =>
    IndexTable_NewIndexForHandshake peer peer draws (indexTable tr));
  modify (set_indexTable (snd r));;
  modifyH peer (set_localIndex (fst (fst r)));;
  check (snd (fst r));;
  h ← getH peer;
  let Sender := localIndex h in
  let Receiver := remoteIndex h in
  (* create ephemeral key *)
  modifyH peer (set_localEphemeral (fst newKey));;
  check (snd newKey);;
  h ← getH peer;
  let Ephemeral := PublicKey (localEphemeral h) in
  modifyH peer (Handshake_mixHash Ephemeral);;
  modifyH peer (Handshake_mixKey Ephemeral);;
  ss ← try (sharedSecret (localEphemeral h) (remoteEphemeral h));
  modifyH peer (Handshake_mixKey ss);;
  ss ← try (sharedSecret (localEphemeral h) (remoteStatic h));
  modifyH peer (Handshake_mixKey ss);;
  (* add preshared key *)
  h ← getH peer;
  let '(c, tau, key) := KDF3 (chainKey h) (presharedKey h) in
  modifyH peer (set_chainKey c);;
  modifyH peer (Handshake_mixHash tau);;
  h ← getH peer;
  let Empty := Seal key ZeroNonce [] (hash h) in
  modifyH peer (Handshake_mixHash Empty);;
  modifyH peer (set_state handshakeResponseCreated);;
  mret {| mr_Type := MessageResponseType; mr_Sender := Sender;
          mr_Receiver := Receiver; mr_Ephemeral := Ephemeral;
          mr_Empty := Empty; mr_MAC1 := zeroMAC; mr_MAC2 := zeroMAC |}.

(** The closure of [ConsumeMessageResponse] that re-derives the
    transcript: [Some (hash, chainKey)] when it returns [true]. *)
Definition deriveResponse (msg : MessageResponse) (si : StaticIdentity)
    (handshake : Handshake) : option (bytes * bytes) :=
  if negb (bool_decide (state handshake = handshakeInitiationCreated))
  then None else
  (* finish 3-way DH *)
  let hash0 := mixHash (hash handshake) (mr_Ephemeral msg) in
  let chainKey0 := mixKey (chainKey handshake) (mr_Ephemeral msg) in
  match sharedSecret (localEphemeral handshake) (mr_Ephemeral msg) with
  | Err _ => None
  | Ok ss =>
  let chainKey1 := mixKey chainKey0 ss in
  match sharedSecret (privateKey si) (mr_Ephemeral msg) with
  | Err _ => None
  | Ok ss =>
  let chainKey2 := mixKey chainKey1 ss in
  (* add preshared key (psk) *)
  let '(chainKey3, tau, key) := KDF3 chainKey2 (presharedKey handshake) in
  let hash1 := mixHash hash0 tau in
  (* authenticate transcript *)
  match Open key ZeroNonce (mr_Empty msg) hash1 with
  | None => None
  | Some _ => Some (mixHash hash1 (mr_Empty msg), chainKey3)
  end end end.

(** [ConsumeMessageResponse] *)
Definition ConsumeMessageResponse (msg : MessageResponse) (tr : Transport)
    : option ploc * Transport :=
  if negb (mr_Type msg =? MessageResponseType) then (None, tr) else
  (* lookup handshake by receiver *)
  let lookup := IndexTable_Lookup (mr_Receiver msg) (indexTable tr) in
  match entry_handshake lookup with
  | None => (None, tr)
  | Some hs =>
      match deriveResponse msg (staticIdentity tr) (handshakeOf tr hs) with
      | None => (None, tr)
      | Some (hash', chainKey') =>
          (* update handshake state *)
          let commit (h : Handshake) : Handshake :=
            set_state handshakeResponseConsumed
              (set_remoteIndex (mr_Sender msg)
                 (set_chainKey chainKey' (set_hash hash' h))) in
          (entry_peer lookup, update_handshake hs commit tr)
      end
  end.

(** *** Keypair rotation *)

(** The tail of [BeginSymmetricSession], from "rotate key pairs" on. *)
Definition rotateKeypairs (peer : ploc) (keypair : kloc) (initiator : bool)
    (tr : Transport) : Transport :=
  let ks := keypairsOf tr peer in
  let previous0 := previous ks in
  let next0 := next ks in
  let current0 := current ks in
  if initiator then
    let tr :=
      match next0 with
      | Some _ =>
          let tr := update_keypairs peer
            {| current := current0; previous := next0; next := None |} tr in
          DeleteKeypair current0 tr
      | None =>
          update_keypairs peer
            {| current := current0; previous := current0; next := next0 |} tr
      end in
    let tr := DeleteKeypair previous0 tr in
    let ks := keypairsOf tr peer in
    update_keypairs peer
      {| current := Some keypair; previous := previous ks; next := next ks |}
      tr
  else
    let tr := update_keypairs peer
      {| current := current0; previous := previous0;
         next := Some keypair |} tr in
    let tr := DeleteKeypair next0 tr in
    let ks := keypairsOf tr peer in
    let tr := update_keypairs peer
      {| current := current ks; previous := None; next := next ks |} tr in
    DeleteKeypair previous0 tr.

(** The keys of the new session: [(sendKey, recvKey, isInitiator)], or
    nothing in a state from which no session starts. *)
Definition deriveKeys (handshake : Handshake)
    : option (bytes * bytes * bool) :=
  if bool_decide (state handshake = handshakeResponseConsumed) then
    let '(sendKey, recvKey) := KDF2 (chainKey handshake) [] in
    Some (sendKey, recvKey, true)
  else if bool_decide (state handshake = handshakeResponseCreated) then
    let '(recvKey, sendKey) := KDF2 (chainKey handshake) [] in
    Some (sendKey, recvKey, false)
  else None.

(** The middle of [BeginSymmetricSession]: "zero handshake", "create AEAD
    instances" and "remap index".  Returns the new [*Keypair]. *)
Definition installKeypair (peer : ploc) (now : Z) (sendKey recvKey : bytes)
    (initiator : bool) (tr : Transport) : kloc * Transport :=
  (* zero handshake *)
  let tr := update_handshake peer (fun h =>
    set_state handshakeZeroed
      (set_localEphemeral (setZero (localEphemeral h))
         (set_hash (setZero (hash h))
            (set_chainKey (setZero (chainKey h)) h)))) tr in
  (* create AEAD instances *)
  let keypair := keypairFree tr in
  let handshake := handshakeOf tr peer in
  let kp :=
    {| sendNonce := 0; send := sendKey; receive := recvKey;
       replayFilter := ReplayFilter_Reset (replayFilter zeroKeypair);
       isInitiator := initiator; created := now;
       kp_localIndex := localIndex handshake;
       kp_remoteIndex := remoteIndex handshake |} in
  let tr := set_keypairFree (S keypair)
              (set_keypairAt (<[keypair := kp]> (keypairAt tr)) tr) in
  (* remap index *)
  let tr := set_indexTable
    (IndexTable_SwapIndexForKeypair (localIndex handshake) keypair
       (indexTable tr)) tr in
  let tr := update_handshake peer (set_localIndex 0) tr in
  (keypair, tr).

(** [BeginSymmetricSession]; [now] is the [time.Now()] stored in
    [keypair.created]. *)
Definition BeginSymmetricSession (peer : ploc) (now : Z) (tr : Transport)
    : option error * Transport :=
  let handshake := handshakeOf tr peer in
  (* derive keys *)
  match deriveKeys handshake with
  | None => (Some (errInvalidState (state handshake)), tr)
  | Some (sendKey, recvKey, initiator) =>
      let '(keypair, tr) :=
        installKeypair peer now sendKey recvKey initiator tr in
      (* rotate key pairs *)
      (None, rotateKeypairs peer keypair initiator tr)
  end.

(** [ReceivedWithKeypair].  The first [keypairs.next.Load()] happens
    before the lock is taken: it reads the state [seen]; [tr] is the state
    once the lock is held.  A caller that runs alone has [seen = tr]. *)
Definition ReceivedWithKeypair (peer : ploc) (receivedKeypair : option kloc)
    (seen tr : Transport) : bool * Transport :=
  if negb (bool_decide (next (keypairsOf seen peer) = receivedKeypair))
  then (false, seen) else
  if negb (bool_decide (next (keypairsOf tr peer) = receivedKeypair))
  then (false, tr) else
  let ks := keypairsOf tr peer in
  let old := previous ks in
  let tr := update_keypairs peer
    {| current := current ks; previous := current ks; next := next ks |} tr in
  let tr := DeleteKeypair old tr in
  let ks := keypairsOf tr peer in
  let tr := update_keypairs peer
    {| current := next ks; previous := previous ks; next := next ks |} tr in
  let ks := keypairsOf tr peer in
  let tr := update_keypairs peer
    {| current := current ks; previous := previous ks; next := None |} tr in
  (true, tr).

(** *** The responder's view of an initiation, named for the statements

    The transcript values [ConsumeMessageInitiation] computes on its way,
    and the two plaintexts it decrypts. *)

Definition responderHash1 (tr : Transport) (msg : MessageInitiation) : bytes :=
  mixHash (mixHash InitialHash (publicKey (staticIdentity tr)))
    (mi_Ephemeral msg).

Definition responderHash2 (tr : Transport) (msg : MessageInitiation) : bytes :=
  mixHash (responderHash1 tr msg) (mi_Static msg).

Definition responderHash3 (tr : Transport) (msg : MessageInitiation) : bytes :=
  mixHash (responderHash2 tr msg) (mi_Timestamp msg).

Definition responderChainKey1 (msg : MessageInitiation) (ss : bytes) : bytes :=
  fst (KDF2 (mixKey InitialChainKey (mi_Ephemeral msg)) ss).

Definition responderChainKey2 (msg : MessageInitiation) (ss pss : bytes)
    : bytes :=
  fst (KDF2 (responderChainKey1 msg ss) pss).

Definition decryptedStatic (tr : Transport) (msg : MessageInitiation)
    (ss : bytes) : option bytes :=
  Open (snd (KDF2 (mixKey InitialChainKey (mi_Ephemeral msg)) ss))
    ZeroNonce (mi_Static msg) (responderHash1 tr msg).

Definition decryptedTimestamp (tr : Transport) (msg : MessageInitiation)
    (ss pss : bytes) : option bytes :=
  Open (snd (KDF2 (responderChainKey1 msg ss) pss))
    ZeroNonce (mi_Timestamp msg) (responderHash2 tr msg).

(** The conditions under which an initiation is turned away, as a list.
    [flood elapsed rate] is the flood test on the time elapsed since the
    last consumption, and [dh] says whether a failed Diffie-Hellman of the
    local static key with the message's ephemeral key is on the list. *)
Definition rejection (flood : Z -> Z -> Prop) (dh : bool)
    (msg : MessageInitiation) (clock : Z) (tr : Transport) : Prop :=
  let si := staticIdentity tr in
  mi_Type msg <> MessageInitiationType
  \/ (dh = true
      /\ exists e, sharedSecret (privateKey si) (mi_Ephemeral msg) = Err e)
  \/ exists ss,
       sharedSecret (privateKey si) (mi_Ephemeral msg) = Ok ss
       /\ (decryptedStatic tr msg ss = None
           \/ exists peerPK,
                decryptedStatic tr msg ss = Some peerPK
                /\ (LookupPeer tr peerPK = None
                    \/ exists peer,
                         LookupPeer tr peerPK = Some peer
                         /\ (let h := handshakeOf tr peer in
                            let pss := precomputedStaticStatic h in
                            isRunning (peerAt tr peer) = false
                            \/ isZero pss = true
                            \/ decryptedTimestamp tr msg ss pss = None
                            \/ exists timestamp,
                                 decryptedTimestamp tr msg ss pss
                                 = Some timestamp
                                 /\ (Timestamp_After timestamp
                                       (lastTimestamp h) = false
                                     \/ flood
                                          (clock
                                           - lastInitiationConsumption h)
                                          HandshakeInitationRate)))).

(** The list as the specification words it: no Diffie-Hellman entry, and
    flood when the elapsed time is strictly below the rate. *)
Definition claimed_rejection := rejection Z.lt false.

(** The list the code implements. *)
Definition actual_rejection := rejection Z.le true.

(** *** The initiator's view of a response, named for the statements *)

(** [(chainKey, tau, key)] once both Diffie-Hellman results and the
    preshared key are mixed in. *)
Definition initiatorKDF3 (msg : MessageResponse) (h : Handshake)
    (ss1 ss2 : bytes) : bytes * bytes * bytes :=
  KDF3 (mixKey (mixKey (mixKey (chainKey h) (mr_Ephemeral msg)) ss1) ss2)
    (presharedKey h).

(** The transcript hash the empty payload is authenticated against. *)
Definition initiatorHash (msg : MessageResponse) (h : Handshake)
    (ss1 ss2 : bytes) : bytes :=
  mixHash (mixHash (hash h) (mr_Ephemeral msg))
    (snd (fst (initiatorKDF3 msg h ss1 ss2))).

(** The ways a response fails against a handshake. *)
Definition response_rejection (msg : MessageResponse) (si : StaticIdentity)
    (h : Handshake) : Prop :=
  state h <> handshakeInitiationCreated
  \/ (exists e, sharedSecret (localEphemeral h) (mr_Ephemeral msg) = Err e)
  \/ (exists e, sharedSecret (privateKey si) (mr_Ephemeral msg) = Err e)
  \/ exists ss1 ss2,
       sharedSecret (localEphemeral h) (mr_Ephemeral msg) = Ok ss1
       /\ sharedSecret (privateKey si) (mr_Ephemeral msg) = Ok ss2
       /\ Open (snd (initiatorKDF3 msg h ss1 ss2)) ZeroNonce (mr_Empty msg)
            (initiatorHash msg h ss1 ss2) = None.

(** A response that checks out, and the hash and chain key it leads to. *)
Definition response_accepted (msg : MessageResponse) (si : StaticIdentity)
    (h : Handshake) (hash' chainKey' : bytes) : Prop :=
  state h = handshakeInitiationCreated
  /\ exists ss1 ss2 plaintext,
       sharedSecret (localEphemeral h) (mr_Ephemeral msg) = Ok ss1
       /\ sharedSecret (privateKey si) (mr_Ephemeral msg) = Ok ss2
       /\ Open (snd (initiatorKDF3 msg h ss1 ss2)) ZeroNonce (mr_Empty msg)
            (initiatorHash msg h ss1 ss2) = Some plaintext
       /\ hash' = mixHash (initiatorHash msg h ss1 ss2) (mr_Empty msg)
       /\ chainKey' = fst (fst (initiatorKDF3 msg h ss1 ss2)).

(** *** Pointers that [new(Keypair)] cannot return again *)

Definition allocated (tr : Transport) (key : option kloc) : Prop :=
  match key with
  | Some k => (k < keypairFree tr)%nat
  | None => True
  end.

Definition keypairs_allocated (tr : Transport) (peer : ploc) : Prop :=
  allocated tr (current (keypairsOf tr peer))
  /\ allocated tr (previous (keypairsOf tr peer))
  /\ allocated tr (next (keypairsOf tr peer)).

End Engine.

End Noise.

(* ===================================================================== *)
(** ** A small executable instance                                        *)
(* ===================================================================== *)

(** Arithmetic stand-ins for the primitives, with the algebra the
    handshake relies on (Diffie-Hellman commutes, [Open] inverts [Seal]
    under the same key and additional data and rejects otherwise), and two
    transports that know each other.  They make every routine runnable. *)

Module Toy.

Import Wire Noise.

Definition weight (b : bytes) : Z := fold_right Z.add 0 b.

Definition digest (n : nat) (x : Z) : bytes := (x mod 251) :: repeat 0 (n - 1).

Definition tag (key nonce plaintext ad : bytes) : bytes :=
  digest 16 (weight key + 3 * weight nonce + 5 * weight plaintext
             + 7 * weight ad + 1).

Definition seal (key nonce plaintext ad : bytes) : bytes :=
  plaintext ++ tag key nonce plaintext ad.

Definition open (key nonce ciphertext ad : bytes) : option bytes :=
  if (length ciphertext <? 16)%nat then None else
  let n := (length ciphertext - 16)%nat in
  let plaintext := take n ciphertext in
  if bool_decide (drop n ciphertext = tag key nonce plaintext ad)
  then Some plaintext else None.

Definition dh (sk pk : bytes) : result error bytes :=
  let ss := digest 32 (weight sk * weight pk) in
  if isZero ss then Err errInvalidPublicKey else Ok ss.

#[global] Instance primitives : Primitives := {
  blake2s_Sum256 := fun data => digest 32 (2 * weight data + 11);
  KDF1 := fun key input => digest 32 (3 * weight key + weight input + 1);
  KDF2 := fun key input =>
    (digest 32 (3 * weight key + weight input + 1),
     digest 32 (3 * weight key + weight input + 2));
  KDF3 := fun key input =>
    (digest 32 (3 * weight key + weight input + 1),
     digest 32 (3 * weight key + weight input + 2),
     digest 32 (3 * weight key + weight input + 3));
  sharedSecret := dh;
  PublicKey := fun sk => digest 32 (9 * weight sk);
  Seal := seal;
  Open := open;
}.

(** 50 ms, in nanoseconds. *)
Definition rate : Z := 50000000.

Definition noKeypairs : Keypairs :=
  {| current := None; previous := None; next := None |}.

Definition identity (sk : bytes) : StaticIdentity :=
  {| privateKey := sk; publicKey := PublicKey sk |}.

(** A running peer with static key [pk], as [NewPeer] leaves it. *)
Definition peerFor (sk pk : bytes) : Peer :=
  {| isRunning := true;
     handshake :=
       {| state := handshakeZeroed; hash := repeat 0 32;
          chainKey := repeat 0 32; presharedKey := repeat 0 32;
          localEphemeral := repeat 0 32; localIndex := 0; remoteIndex := 0;
          remoteStatic := pk; remoteEphemeral := repeat 0 32;
          precomputedStaticStatic :=
            match dh sk pk with Ok ss => ss | Err _ => repeat 0 32 end;
          lastTimestamp := repeat 0 12;
          lastInitiationConsumption := 0; lastSentHandshake := 0 |};
     keypairs := noKeypairs |}.

(** A transport with private key [sk] and one peer, at location 0. *)
Definition transportFor (sk pk : bytes) : Transport :=
  {| staticIdentity := identity sk;
     keyMap := {[ pk := 0%nat ]};
     peerAt := fun _ => peerFor sk pk;
     keypairAt := fun _ => zeroKeypair;
     keypairFree := 0%nat;
     indexTable := ∅ |}.

Definition skA : bytes := digest 32 5.
Definition skB : bytes := digest 32 7.
Definition alice : Transport := transportFor skA (PublicKey skB).
Definition bob : Transport := transportFor skB (PublicKey skA).

Definition ephA : bytes := digest 32 21.
Definition ephB : bytes := digest 32 33.

(** A TAI64N label and a wall clock well after the epoch. *)
Definition stamp : bytes := [64; 0; 0; 0; 101; 0; 0; 0; 0; 0; 0; 1].
Definition wall : Z := 1700000000000000000.

(** One full handshake, step by step. *)
Definition alice1 := CreateMessageInitiation 0%nat (ephA, None) stamp [4242] alice.
Definition bob1 :=
  match fst alice1 with
  | Ok msg => ConsumeMessageInitiation rate msg wall wall bob
  | Err _ => (None, bob)
  end.
Definition bob2 := CreateMessageResponse 0%nat (ephB, None) [777] (snd bob1).
Definition alice2 :=
  match fst bob2 with
  | Ok msg => ConsumeMessageResponse msg (snd alice1)
  | Err _ => (None, snd alice1)
  end.
Definition alice3 := BeginSymmetricSession 0%nat wall (snd alice2).
Definition bob3 := BeginSymmetricSession 0%nat wall (snd bob2).


(** A second handshake on top of the first session (a rekey). *)
Definition alice4 :=
  CreateMessageInitiation 0%nat (digest 32 55, None)
    [64; 0; 0; 0; 101; 0; 0; 200; 0; 0; 0; 1] [4242; 9001] (snd alice3).
Definition bob4 :=
  match fst alice4 with
  | Ok msg =>
      ConsumeMessageInitiation rate msg (wall + 120000000000)
        (wall + 120000000001) (snd bob3)
  | Err _ => (None, snd bob3)
  end.
Definition bob5 :=
  CreateMessageResponse 0%nat (digest 32 77, None) [777; 31337] (snd bob4).
Definition alice5 :=
  match fst bob5 with
  | Ok msg => ConsumeMessageResponse msg (snd alice4)
  | Err _ => (None, snd alice4)
  end.

(** The first initiation again, as [bob] sees it at the very instant the
    rate allows: the elapsed time equals the rate. *)
Definition firstInitiation : MessageInitiation :=
  match fst alice1 with
  | Ok msg => msg
  | Err _ =>
      {| mi_Type := 0; mi_Sender := 0; mi_Ephemeral := []; mi_Static := [];
         mi_Timestamp := []; mi_MAC1 := []; mi_MAC2 := [] |}
  end.

(** [alice] before the static-static secret of her peer is computed. *)
Definition unkeyed : Transport :=
  {| staticIdentity := identity skA;
     keyMap := {[ PublicKey skB := 0%nat ]};
     peerAt := fun _ =>
       {| isRunning := true;
          handshake :=
            {| state := handshakeZeroed; hash := repeat 0 32;
               chainKey := repeat 0 32; presharedKey := repeat 0 32;
               localEphemeral := repeat 0 32; localIndex := 0;
               remoteIndex := 0; remoteStatic := PublicKey skB;
               remoteEphemeral := repeat 0 32;
               precomputedStaticStatic := repeat 0 32;
               lastTimestamp := repeat 0 12;
               lastInitiationConsumption := 0; lastSentHandshake := 0 |};
          keypairs := noKeypairs |};
     keypairAt := fun _ => zeroKeypair;
     keypairFree := 0%nat;
     indexTable := ∅ |}.

(** The second initiation, which reaches [bob] after the first session. *)
Definition secondInitiation : MessageInitiation :=
  match fst alice4 with
  | Ok msg => msg
  | Err _ => firstInitiation
  end.

(** The response [bob] gives to the first initiation. *)
Definition firstResponse : MessageResponse :=
  match fst bob2 with
  | Ok msg => msg
  | Err _ =>
      {| mr_Type := 0; mr_Sender := 0; mr_Receiver := 0; mr_Ephemeral := [];
         mr_Empty := []; mr_MAC1 := []; mr_MAC2 := [] |}
  end.

(** [alice] gives up waiting and initiates again, under a new index. *)
Definition aliceRetry :=
  CreateMessageInitiation 0%nat (digest 32 29, None)
    [64; 0; 0; 0; 101; 0; 0; 9; 0; 0; 0; 1] [5555] (snd alice1).
Definition retriedInitiation : MessageInitiation :=
  match fst aliceRetry with
  | Ok msg => msg
  | Err _ => firstInitiation
  end.

(** A peer whose static key is the all-zero point: its precomputed secret
    stays zero. *)
Definition mallory : Transport := transportFor skA (repeat 0 32).

End Toy.

(* ===================================================================== *)
(** * Properties                                                          *)
(* ===================================================================== *)

(** ** Configuration kinds *)

Module ConfigProofs.

Import Config.

Lemma GetConfigByKind_Config : GetConfigByKind "Config" = Ok zeroConfig.
Proof. reflexivity. Qed.

Lemma GetConfigByKind_other (k : string) :
  k <> "Config"%string -> GetConfigByKind k = Err (unsupported_kind k).
Proof.
  intros Hk. unfold GetConfigByKind.
  destruct (String.eqb_spec k "Config"); [contradiction | reflexivity].
Qed.

(** C9.  [GetConfigByKind k] yields a [Config] exactly when [k] is
    ["Config"] and is an error (naming [k]) for every other kind; every
    [Config] value answers ["Config"] to [GetKind] and
    ["noisysockets.github.com/v1alpha1"] to [GetAPIVersion]. *)
Theorem GetConfigByKind_spec (k : string) :
  ((exists c : Config, GetConfigByKind k = Ok c) <-> k = "Config"%string)
  /\ ((exists e, GetConfigByKind k = Err e) <-> k <> "Config"%string)
  /\ (forall e, GetConfigByKind k = Err e ->
        error_message e = ("unsupported kind: " +:+ k)%string)
  /\ (forall c : Config,
        GetKind c = "Config"%string
        /\ GetAPIVersion c = "noisysockets.github.com/v1alpha1"%string).
Proof.
  destruct (decide (k = "Config"%string)) as [-> | Hk].
  - rewrite GetConfigByKind_Config. repeat split; try done.
    + eauto.
    + intros [e He]; discriminate.
  - rewrite (GetConfigByKind_other k Hk). repeat split; try done.
    + intros [c Hc]; discriminate.
    + eauto.
    + intros e [= <-]. reflexivity.
Qed.

End ConfigProofs.

(** ** Wire layout *)

Module WireProofs.

Import Wire.

Lemma packed_size_app (l1 l2 : layout) :
  packed_size (l1 ++ l2) = packed_size l1 + packed_size l2.
Proof.
  induction l1 as [| f l1 IH]; simpl; [reflexivity |].
  unfold packed_size in *. simpl. rewrite IH. lia.
Qed.

(** C8.  The declared sizes are the sums of the field sizes: 148 bytes for
    an initiation, 92 for a response, 64 for a cookie reply; a transport
    message has a 16-byte header with the type at 0, the receiver at 4,
    the 8-byte counter at 8 and the content at 16, and the content is
    ciphertext plus a 16-byte tag. *)
Theorem message_sizes :
  packed_size MessageInitiation = MessageInitiationSize
  /\ MessageInitiationSize = 4 + 4 + 32 + (32 + 16) + (12 + 16) + 16 + 16
  /\ MessageInitiationSize = 148
  /\ packed_size MessageResponse = MessageResponseSize
  /\ MessageResponseSize = 4 + 4 + 4 + 32 + (0 + 16) + 16 + 16
  /\ MessageResponseSize = 92
  /\ packed_size MessageCookieReply = MessageCookieReplySize
  /\ MessageCookieReplySize = 4 + 4 + 24 + (16 + 16)
  /\ MessageCookieReplySize = 64
  /\ packed_size MessageTransport = MessageTransportHeaderSize
  /\ MessageTransportHeaderSize = 16
  /\ offset_of "Type" MessageTransport = Some 0
  /\ offset_of "Receiver" MessageTransport = Some MessageTransportOffsetReceiver
  /\ MessageTransportOffsetReceiver = 4
  /\ offset_of "Counter" MessageTransport = Some MessageTransportOffsetCounter
  /\ MessageTransportOffsetCounter = 8
  /\ sizeof uint64 = 8
  /\ offset_of "Content" MessageTransport = Some MessageTransportOffsetContent
  /\ MessageTransportOffsetContent = 16
  /\ MessageTransportSize = MessageTransportHeaderSize + poly1305_TagSize
  /\ poly1305_TagSize = 16
  /\ (forall ciphertext tag : bytes,
        Z.of_nat (length tag) = poly1305_TagSize ->
        transport_wire_size (ciphertext ++ tag)
        = 16 + Z.of_nat (length ciphertext) + 16).
Proof.
  repeat (split; [reflexivity |]).
  intros ciphertext tag Htag. unfold transport_wire_size.
  rewrite length_app, Nat2Z.inj_add, Htag.
  unfold MessageTransportOffsetContent, poly1305_TagSize. lia.
Qed.

End WireProofs.

(** ** The peer directory *)

Module PeerDirectoryProofs.

Import PeerDirectory.

Section Directory.

Context {Addr : Type} `{Countable Addr}.

Implicit Types (tbl : gmap Addr NoisePublicKey) (addrs pre post : list Addr).

Lemma registered_lookup publicKey pre tbl (a : Addr) :
  registered publicKey pre tbl !! a
  = if decide (a ∈ pre) then Some publicKey else tbl !! a.
Proof.
  revert tbl. induction pre as [| b pre IH]; intros tbl.
  - destruct (decide (a ∈ [])) as [Hin%elem_of_nil | _]; [contradiction |].
    reflexivity.
  - change (registered publicKey (b :: pre) tbl)
      with (registered publicKey pre (<[b := publicKey]> tbl)).
    rewrite IH.
    destruct (decide (a ∈ pre)) as [Hin | Hnin];
      destruct (decide (a ∈ b :: pre)) as [Hin' | Hnin'];
      rewrite ?elem_of_cons in *; try tauto.
    + destruct Hin' as [-> | ?]; [apply lookup_insert_eq | tauto].
    + apply lookup_insert_ne. intros ->. tauto.
Qed.

(** The loop, run to its end: either every address was free and distinct,
    or it stopped at the first one that was not. *)
Lemma register_addrs_spec publicKey addrs tbl :
  match register_addrs publicKey addrs tbl with
  | (None, tbl') =>
      tbl' = registered publicKey addrs tbl
      /\ NoDup addrs /\ (forall a, a ∈ addrs -> tbl !! a = None)
  | (Some e, tbl') =>
      exists pre dup post,
        addrs = pre ++ dup :: post
        /\ e = address_in_use dup
        /\ tbl' = registered publicKey pre tbl
        /\ NoDup pre /\ (forall a, a ∈ pre -> tbl !! a = None)
        /\ (is_Some (tbl !! dup) \/ dup ∈ pre)
  end.
Proof.
  revert tbl. induction addrs as [| a addrs IH]; intros tbl; simpl.
  - repeat split; [constructor | intros a Ha%elem_of_nil; contradiction].
  - destruct (tbl !! a) as [owner |] eqn:Ha.
    + exists [], a, addrs. simpl. repeat split; eauto using NoDup_nil_2.
      intros b Hb%elem_of_nil; contradiction.
    + specialize (IH (<[a := publicKey]> tbl)).
      destruct (register_addrs publicKey addrs (<[a := publicKey]> tbl))
        as [[e |] tbl'].
      * destruct IH as (pre & dup & post & -> & -> & -> & Hnd & Hfree & Hdup).
        assert (Hpre : a ∉ pre).
        { intros Hin. specialize (Hfree a Hin).
          rewrite lookup_insert_eq in Hfree. discriminate. }
        exists (a :: pre), dup, post. repeat split; auto.
        -- constructor; assumption.
        -- intros b [-> | Hb]%elem_of_cons; [assumption |].
           specialize (Hfree b Hb).
           rewrite lookup_insert_ne in Hfree by (intros ->; contradiction).
           assumption.
        -- rewrite elem_of_cons.
           destruct Hdup as [Hsome | Hin]; [| tauto].
           destruct (decide (dup = a)) as [-> | Hne]; [tauto |].
           left. rewrite lookup_insert_ne in Hsome by congruence. assumption.
      * destruct IH as (-> & Hnd & Hfree).
        assert (Hpre : a ∉ addrs).
        { intros Hin. specialize (Hfree a Hin).
          rewrite lookup_insert_eq in Hfree. discriminate. }
        repeat split.
        -- constructor; assumption.
        -- intros b [-> | Hb]%elem_of_cons; [assumption |].
           specialize (Hfree b Hb).
           rewrite lookup_insert_ne in Hfree by (intros ->; contradiction).
           assumption.
Qed.

(** The loop fails as soon as one address is taken. *)
Lemma register_addrs_taken publicKey addrs tbl (a : Addr) :
  a ∈ addrs -> is_Some (tbl !! a) ->
  exists e, fst (register_addrs publicKey addrs tbl) = Some e.
Proof.
  intros Hin Hsome.
  pose proof (register_addrs_spec publicKey addrs tbl) as Hspec.
  destruct (register_addrs publicKey addrs tbl) as [[e |] tbl']; [eauto |].
  destruct Hspec as (_ & _ & Hfree). rewrite (Hfree a Hin) in Hsome.
  destruct Hsome; discriminate.
Qed.

(** C10.  When some address of [addrs] is already registered (to whatever
    key), [AddPeer] returns an error naming the first address [dup] that
    is taken, and the update stays half done: the name (when not empty)
    maps to the key, the key maps to [addrs], and each address before
    [dup] is registered to the key. *)
Theorem AddPeer_address_in_use (pd : peerDirectory Addr) (name : string)
    (publicKey : NoisePublicKey) addrs :
  (exists a, a ∈ addrs /\ is_Some (fromPeerAddress pd !! a)) ->
  exists pre dup post,
    addrs = pre ++ dup :: post
    /\ fst (AddPeer pd name publicKey addrs) = Some (address_in_use dup)
    /\ NoDup pre
    /\ (forall a, a ∈ pre -> fromPeerAddress pd !! a = None)
    /\ (is_Some (fromPeerAddress pd !! dup) \/ dup ∈ pre)
    /\ (let pd' := snd (AddPeer pd name publicKey addrs) in
        (name <> ""%string -> peerNames pd' !! name = Some publicKey)
        /\ peerAddresses pd' !! publicKey = Some addrs
        /\ (forall a, a ∈ pre -> fromPeerAddress pd' !! a = Some publicKey)
        /\ (forall a, a ∉ pre ->
              fromPeerAddress pd' !! a = fromPeerAddress pd !! a)).
Proof.
  intros (a & Hin & Hsome).
  destruct (register_addrs_taken publicKey addrs _ a Hin Hsome) as [e He].
  pose proof (register_addrs_spec publicKey addrs (fromPeerAddress pd))
    as Hspec.
  unfold AddPeer.
  destruct (register_addrs publicKey addrs (fromPeerAddress pd))
    as [[e' |] tbl']; [| discriminate].
  destruct Hspec as (pre & dup & post & -> & -> & -> & Hnd & Hfree & Hdup).
  exists pre, dup, post. simpl. repeat split; auto.
  - intros Hname. rewrite decide_False by assumption. apply lookup_insert_eq.
  - apply lookup_insert_eq.
  - intros b Hb. rewrite registered_lookup, decide_True by assumption.
    reflexivity.
  - intros b Hb. rewrite registered_lookup, decide_False by assumption.
    reflexivity.
Qed.

End Directory.

(** Adding the same peer twice, with IPv4 addresses as numbers: the second
    call fails on the first address although it belongs to the same key. *)
Lemma AddPeer_address_in_use_witness :
  let pk : NoisePublicKey := repeat 7 32 in
  let addrs : list Z := [167772161; 167772162] in
  let pd := snd (AddPeer newPeerDirectory "gateway" pk addrs) in
  fst (AddPeer newPeerDirectory "gateway" pk addrs) = None
  /\ exists pre dup post,
    addrs = pre ++ dup :: post
    /\ fst (AddPeer pd "gateway" pk addrs) = Some (address_in_use dup)
    /\ NoDup pre
    /\ (forall a, a ∈ pre -> fromPeerAddress pd !! a = None)
    /\ (is_Some (fromPeerAddress pd !! dup) \/ dup ∈ pre)
    /\ (let pd' := snd (AddPeer pd "gateway" pk addrs) in
        ("gateway"%string <> ""%string -> peerNames pd' !! "gateway"%string = Some pk)
        /\ peerAddresses pd' !! pk = Some addrs
        /\ (forall a, a ∈ pre -> fromPeerAddress pd' !! a = Some pk)
        /\ (forall a, a ∉ pre ->
              fromPeerAddress pd' !! a = fromPeerAddress pd !! a)).
Proof.
  intros pk addrs pd. split; [reflexivity |].
  apply (AddPeer_address_in_use pd "gateway" pk addrs).
  exists 167772161. split; [apply elem_of_cons; left; reflexivity |].
  vm_compute; eauto.
Defined.

End PeerDirectoryProofs.

(** ** The handshake engine *)

Module NoiseProofs.

Import Wire Noise.

(** *** Byte slices *)

Lemma isZero_setZero (b : bytes) : isZero (setZero b) = true.
Proof. induction b as [| x b IH]; simpl; auto. Qed.

Lemma setZero_length (b : bytes) : length (setZero b) = length b.
Proof. apply length_map. Qed.

(** *** TAI64N labels: [Timestamp_After] is a strict order *)

Lemma bytes_compare_refl (a : bytes) : bytes_compare a a = Eq.
Proof.
  induction a as [| x a IH]; simpl; [reflexivity |].
  rewrite Z.compare_refl. exact IH.
Qed.

Lemma bytes_compare_antisym (a b : bytes) :
  bytes_compare b a = CompOpp (bytes_compare a b).
Proof.
  revert b. induction a as [| x a IH]; intros [| y b]; simpl; auto.
  rewrite (Z.compare_antisym x y).
  destruct (x ?= y); simpl; auto.
Qed.

Lemma Timestamp_After_irrefl (t : bytes) : Timestamp_After t t = false.
Proof. unfold Timestamp_After. rewrite bytes_compare_refl. reflexivity. Qed.

Lemma Timestamp_After_asym (t u : bytes) :
  Timestamp_After t u = true -> Timestamp_After u t = false.
Proof.
  unfold Timestamp_After. rewrite (bytes_compare_antisym t u).
  destruct (bytes_compare t u); simpl; congruence.
Qed.

(** *** Time *)

Lemma Since_le (now t rate : Z) :
  minDuration <= rate < maxDuration ->
  (Since now t <=? rate) = (now - t <=? rate).
Proof.
  intros [Hlo Hhi]. unfold Since, Time_Sub.
  destruct (Z.ltb_spec (now - t) minDuration).
  - symmetry. apply Z.leb_le in Hlo. rewrite Hlo. apply Z.leb_le. lia.
  - destruct (Z.ltb_spec maxDuration (now - t)); [| reflexivity].
    transitivity false; [apply Z.leb_gt; lia | symmetry; apply Z.leb_gt; lia].
Qed.

(** *** Reading the state back after an update *)

Lemma handshakeOf_update (p q : ploc) (f : Handshake -> Handshake)
    (tr : Transport) :
  handshakeOf (update_handshake p f tr) q
  = if decide (p = q) then f (handshakeOf tr p) else handshakeOf tr q.
Proof.
  unfold handshakeOf, update_handshake. simpl.
  destruct (decide (p = q)) as [-> | Hne].
  - rewrite fn_lookup_insert. reflexivity.
  - rewrite fn_lookup_insert_ne by congruence. reflexivity.
Qed.

Lemma handshakeOf_update_eq (p : ploc) (f : Handshake -> Handshake)
    (tr : Transport) :
  handshakeOf (update_handshake p f tr) p = f (handshakeOf tr p).
Proof. rewrite handshakeOf_update, decide_True; reflexivity. Qed.

Lemma keypairsOf_update_handshake (p q : ploc) (f : Handshake -> Handshake)
    (tr : Transport) :
  keypairsOf (update_handshake p f tr) q = keypairsOf tr q.
Proof.
  unfold keypairsOf, update_handshake. simpl.
  destruct (decide (p = q)) as [-> | Hne].
  - rewrite fn_lookup_insert. reflexivity.
  - rewrite fn_lookup_insert_ne by congruence. reflexivity.
Qed.

Lemma keypairsOf_update_keypairs (p : ploc) (k : Keypairs) (tr : Transport) :
  keypairsOf (update_keypairs p k tr) p = k.
Proof.
  unfold keypairsOf, update_keypairs. simpl.
  rewrite fn_lookup_insert. reflexivity.
Qed.

Lemma handshakeOf_update_keypairs (p q : ploc) (k : Keypairs)
    (tr : Transport) :
  handshakeOf (update_keypairs p k tr) q = handshakeOf tr q.
Proof.
  unfold handshakeOf, update_keypairs. simpl.
  destruct (decide (p = q)) as [-> | Hne].
  - rewrite fn_lookup_insert. reflexivity.
  - rewrite fn_lookup_insert_ne by congruence. reflexivity.
Qed.

Lemma handshakeOf_set_indexTable t (tr : Transport) (p : ploc) :
  handshakeOf (set_indexTable t tr) p = handshakeOf tr p.
Proof. reflexivity. Qed.

Lemma handshakeOf_set_keypairAt f (tr : Transport) (p : ploc) :
  handshakeOf (set_keypairAt f tr) p = handshakeOf tr p.
Proof. reflexivity. Qed.

Lemma handshakeOf_set_keypairFree k (tr : Transport) (p : ploc) :
  handshakeOf (set_keypairFree k tr) p = handshakeOf tr p.
Proof. reflexivity. Qed.

Lemma keypairsOf_set_indexTable t (tr : Transport) (p : ploc) :
  keypairsOf (set_indexTable t tr) p = keypairsOf tr p.
Proof. reflexivity. Qed.

Lemma keypairsOf_set_keypairAt f (tr : Transport) (p : ploc) :
  keypairsOf (set_keypairAt f tr) p = keypairsOf tr p.
Proof. reflexivity. Qed.

Lemma keypairsOf_set_keypairFree k (tr : Transport) (p : ploc) :
  keypairsOf (set_keypairFree k tr) p = keypairsOf tr p.
Proof. reflexivity. Qed.

Lemma keypairsOf_DeleteKeypair (key : option kloc) (p : ploc)
    (tr : Transport) :
  keypairsOf (DeleteKeypair key tr) p = keypairsOf tr p.
Proof. destruct key; reflexivity. Qed.

Lemma handshakeOf_DeleteKeypair (key : option kloc) (p : ploc)
    (tr : Transport) :
  handshakeOf (DeleteKeypair key tr) p = handshakeOf tr p.
Proof. destruct key; reflexivity. Qed.

(** *** Deleting keypairs *)

Lemma keypairAt_DeleteKeypair (k k' : kloc) (tr : Transport) :
  keypairAt (DeleteKeypair (Some k) tr) k'
  = if decide (k = k') then zeroKeys (keypairAt tr k) else keypairAt tr k'.
Proof.
  unfold DeleteKeypair. simpl.
  destruct (decide (k = k')) as [-> | Hne].
  - rewrite fn_lookup_insert. reflexivity.
  - rewrite fn_lookup_insert_ne by congruence. reflexivity.
Qed.

Lemma keypairAt_update_keypairs (p : ploc) (ks : Keypairs) (k : kloc)
    (tr : Transport) :
  keypairAt (update_keypairs p ks tr) k = keypairAt tr k.
Proof. reflexivity. Qed.

Lemma keypairAt_DeleteKeypair_other (key : option kloc) (k' : kloc)
    (tr : Transport) :
  key <> Some k' -> keypairAt (DeleteKeypair key tr) k' = keypairAt tr k'.
Proof.
  intros Hne. destruct key as [k |]; [| reflexivity].
  rewrite keypairAt_DeleteKeypair, decide_False; [reflexivity | congruence].
Qed.

Lemma DeleteKeypair_deleted (k : kloc) (tr : Transport) :
  keypair_deleted (DeleteKeypair (Some k) tr) k.
Proof.
  unfold keypair_deleted. rewrite keypairAt_DeleteKeypair, decide_True by done.
  simpl. rewrite !isZero_setZero. repeat split.
  unfold IndexTable_Delete. apply lookup_delete_eq.
Qed.

Lemma keypair_deleted_DeleteKeypair (key : option kloc) (k : kloc)
    (tr : Transport) :
  keypair_deleted tr k -> keypair_deleted (DeleteKeypair key tr) k.
Proof.
  intros (Hidx & Hsend & Hrecv). destruct key as [k0 |]; [| done].
  unfold keypair_deleted. rewrite keypairAt_DeleteKeypair.
  destruct (decide (k0 = k)) as [-> | Hne].
  - simpl. rewrite !isZero_setZero. repeat split.
    unfold IndexTable_Delete. apply lookup_delete_eq.
  - simpl. repeat split; try assumption.
    unfold IndexTable_Delete. rewrite lookup_delete.
    case_decide; [reflexivity | assumption].
Qed.

Lemma keypair_deleted_update_keypairs (p : ploc) (ks : Keypairs) (k : kloc)
    (tr : Transport) :
  keypair_deleted tr k -> keypair_deleted (update_keypairs p ks tr) k.
Proof. intros H. exact H. Qed.

(** Rewriting with the lemmas above until the slots are in the open. *)
Ltac read_state :=
  repeat first
    [ rewrite keypairsOf_update_keypairs
    | rewrite keypairsOf_DeleteKeypair
    | rewrite keypairsOf_update_handshake
    | rewrite handshakeOf_update_eq
    | rewrite handshakeOf_update_keypairs
    | rewrite handshakeOf_DeleteKeypair
    | rewrite handshakeOf_set_indexTable
    | rewrite handshakeOf_set_keypairAt
    | rewrite handshakeOf_set_keypairFree
    | rewrite keypairsOf_set_indexTable
    | rewrite keypairsOf_set_keypairAt
    | rewrite keypairsOf_set_keypairFree ]; simpl.

Section Engine.

Context {prim : Primitives}.

(** *** Rotation *)

Lemma rotateKeypairs_initiator (peer : ploc) (new : kloc) (tr : Transport) :
  let ks := keypairsOf tr peer in
  let tr' := rotateKeypairs peer new true tr in
  let ks' := keypairsOf tr' peer in
  current ks' = Some new
  /\ match next ks with
     | Some n =>
         previous ks' = Some n /\ next ks' = None
         /\ (forall c, current ks = Some c -> keypair_deleted tr' c)
     | None =>
         previous ks' = current ks /\ next ks' = None
     end
  /\ (forall p, previous ks = Some p -> keypair_deleted tr' p).
Proof.
  intros ks tr' ks'. subst ks' tr'. unfold rotateKeypairs. fold ks.
  destruct (next ks) as [n |] eqn:Hnext; read_state.
  - split_and!; try reflexivity.
    + intros c Hc. rewrite Hc.
      apply keypair_deleted_update_keypairs, keypair_deleted_DeleteKeypair,
        DeleteKeypair_deleted.
    + intros p Hp. rewrite Hp.
      apply keypair_deleted_update_keypairs, DeleteKeypair_deleted.
  - split_and!; try reflexivity.
    intros p Hp. rewrite Hp.
    apply keypair_deleted_update_keypairs, DeleteKeypair_deleted.
Qed.

Lemma rotateKeypairs_responder (peer : ploc) (new : kloc) (tr : Transport) :
  let ks := keypairsOf tr peer in
  let tr' := rotateKeypairs peer new false tr in
  let ks' := keypairsOf tr' peer in
  next ks' = Some new
  /\ (forall n, next ks = Some n -> keypair_deleted tr' n)
  /\ previous ks' = None
  /\ (forall p, previous ks = Some p -> keypair_deleted tr' p)
  /\ current ks' = current ks.
Proof.
  intros ks tr' ks'. subst ks' tr'. unfold rotateKeypairs. fold ks.
  read_state. split_and!; try reflexivity.
  - intros n Hn. rewrite Hn.
    apply keypair_deleted_DeleteKeypair, keypair_deleted_update_keypairs,
      DeleteKeypair_deleted.
  - intros p Hp. rewrite Hp. apply DeleteKeypair_deleted.
Qed.


(** *** [BeginSymmetricSession] *)

Lemma deriveKeys_cases (h : Handshake) :
  (state h = handshakeResponseConsumed
   /\ deriveKeys h
      = Some (fst (KDF2 (chainKey h) []), snd (KDF2 (chainKey h) []), true))
  \/ (state h = handshakeResponseCreated
      /\ deriveKeys h
         = Some (snd (KDF2 (chainKey h) []), fst (KDF2 (chainKey h) []), false))
  \/ (state h <> handshakeResponseConsumed
      /\ state h <> handshakeResponseCreated
      /\ deriveKeys h = None).
Proof.
  unfold deriveKeys.
  destruct (KDF2 (chainKey h) []) as [t0 t1]. simpl.
  destruct (state h); simpl; auto; right; right; split_and!; congruence.
Qed.

Lemma installKeypair_new peer now sendKey recvKey initiator tr :
  fst (installKeypair peer now sendKey recvKey initiator tr) = keypairFree tr.
Proof. reflexivity. Qed.

Lemma installKeypair_keypairs peer now sendKey recvKey initiator tr :
  keypairsOf (snd (installKeypair peer now sendKey recvKey initiator tr)) peer
  = keypairsOf tr peer.
Proof.
  unfold installKeypair. cbv zeta. unfold snd. read_state. reflexivity.
Qed.

Lemma installKeypair_keypair peer now sendKey recvKey initiator tr :
  let kp :=
    keypairAt (snd (installKeypair peer now sendKey recvKey initiator tr))
      (keypairFree tr) in
  send kp = sendKey /\ receive kp = recvKey /\ isInitiator kp = initiator
  /\ created kp = now
  /\ kp_localIndex kp = localIndex (handshakeOf tr peer)
  /\ kp_remoteIndex kp = remoteIndex (handshakeOf tr peer).
Proof.
  unfold installKeypair. simpl. rewrite fn_lookup_insert. simpl.
  rewrite handshakeOf_update_eq. simpl. split_and!; reflexivity.
Qed.

Lemma installKeypair_handshake peer now sendKey recvKey initiator tr :
  let h := handshakeOf tr peer in
  let h' :=
    handshakeOf (snd (installKeypair peer now sendKey recvKey initiator tr))
      peer in
  chainKey h' = setZero (chainKey h)
  /\ hash h' = setZero (hash h)
  /\ localEphemeral h' = setZero (localEphemeral h)
  /\ state h' = handshakeZeroed
  /\ localIndex h' = 0.
Proof.
  unfold installKeypair. cbv zeta. unfold snd. read_state.
  split_and!; reflexivity.
Qed.

Lemma handshakeOf_rotateKeypairs peer new initiator tr :
  handshakeOf (rotateKeypairs peer new initiator tr) peer
  = handshakeOf tr peer.
Proof.
  unfold rotateKeypairs.
  destruct initiator, (next (keypairsOf tr peer)); read_state; reflexivity.
Qed.

(** A keypair that no slot points at keeps its contents through the
    rotation. *)
Lemma keypairAt_rotateKeypairs peer new initiator tr :
  current (keypairsOf tr peer) <> Some new ->
  previous (keypairsOf tr peer) <> Some new ->
  next (keypairsOf tr peer) <> Some new ->
  keypairAt (rotateKeypairs peer new initiator tr) new = keypairAt tr new.
Proof.
  intros Hc Hp Hn. unfold rotateKeypairs.
  destruct initiator, (next (keypairsOf tr peer)) as [n |];
    cbv beta iota zeta;
    repeat first
      [ rewrite keypairAt_update_keypairs
      | rewrite keypairAt_DeleteKeypair_other by assumption ];
    reflexivity.
Qed.

Lemma allocated_ne (tr : Transport) (key : option kloc) :
  allocated tr key -> key <> Some (keypairFree tr).
Proof. destruct key as [k |]; simpl; [intros Hlt [= ->]; lia | done]. Qed.

(** C2.  The slots after [BeginSymmetricSession].  Initiator (state
    ResponseConsumed): [current] is the new keypair; with a keypair in
    [next], [previous] becomes it, [next] is emptied and the old [current]
    is deleted; without one, [previous] becomes the old [current]; the old
    [previous] is deleted either way.  Responder (state ResponseCreated): [next]
    is the new keypair, the old [next] is deleted, [previous] is emptied,
    the old [previous] is deleted, and [current] is as before. *)
Theorem BeginSymmetricSession_rotation (peer : ploc) (now : Z)
    (tr : Transport) :
  let ks := keypairsOf tr peer in
  let r := BeginSymmetricSession peer now tr in
  let ks' := keypairsOf (snd r) peer in
  let new := keypairFree tr in
  (state (handshakeOf tr peer) = handshakeResponseConsumed ->
     fst r = None
     /\ current ks' = Some new
     /\ match next ks with
        | Some n =>
            previous ks' = Some n /\ next ks' = None
            /\ (forall c, current ks = Some c -> keypair_deleted (snd r) c)
        | None =>
            previous ks' = current ks /\ next ks' = None
        end
     /\ (forall p, previous ks = Some p -> keypair_deleted (snd r) p))
  /\ (state (handshakeOf tr peer) = handshakeResponseCreated ->
        fst r = None
        /\ next ks' = Some new
        /\ (forall n, next ks = Some n -> keypair_deleted (snd r) n)
        /\ previous ks' = None
        /\ (forall p, previous ks = Some p -> keypair_deleted (snd r) p)
        /\ current ks' = current ks).
Proof.
  intros ks r ks' new. subst r ks'. unfold BeginSymmetricSession.
  destruct (deriveKeys_cases (handshakeOf tr peer))
    as [[Hst ->] | [[Hst ->] | (Hne1 & Hne2 & ->)]].
  - split; [intros _ | rewrite Hst; discriminate].
    destruct (installKeypair peer now _ _ true tr) as [k tr1] eqn:Hinst.
    assert (k = new) as -> by (now apply (f_equal fst) in Hinst).
    assert (keypairsOf tr1 peer = ks) as Hks.
    { apply (f_equal snd) in Hinst. simpl in Hinst. subst tr1.
      apply installKeypair_keypairs. }
    pose proof (rotateKeypairs_initiator peer new tr1) as Hrot.
    cbv zeta in Hrot. rewrite Hks in Hrot. cbn [fst snd].
    destruct Hrot as (Hcur & Hnext & Hprev).
    split_and!; [reflexivity | assumption | exact Hnext | exact Hprev].
  - split; [rewrite Hst; discriminate | intros _].
    destruct (installKeypair peer now _ _ false tr) as [k tr1] eqn:Hinst.
    assert (k = new) as -> by (now apply (f_equal fst) in Hinst).
    assert (keypairsOf tr1 peer = ks) as Hks.
    { apply (f_equal snd) in Hinst. simpl in Hinst. subst tr1.
      apply installKeypair_keypairs. }
    pose proof (rotateKeypairs_responder peer new tr1) as Hrot.
    cbv zeta in Hrot. rewrite Hks in Hrot. cbn [fst snd].
    split; [reflexivity | exact Hrot].
  - split; intros Hst; contradiction.
Qed.

(** C3.  The keys of the new session.  From state ResponseConsumed the two
    outputs of [KDF2 chainKey []] become the send key and the receive key,
    in that order, of an initiator keypair; from state ResponseCreated the
    first output is the receive key and the second the send key of a
    responder keypair.  In both cases the chain key, the hash and the
    local ephemeral key of the handshake are zeroed; from any other state
    the call fails and changes nothing. *)
Theorem BeginSymmetricSession_keys (peer : ploc) (now : Z) (tr : Transport) :
  keypairs_allocated tr peer ->
  let h := handshakeOf tr peer in
  let t := KDF2 (chainKey h) [] in
  let r := BeginSymmetricSession peer now tr in
  let h' := handshakeOf (snd r) peer in
  let ks' := keypairsOf (snd r) peer in
  let new := keypairAt (snd r) (keypairFree tr) in
  (state h = handshakeResponseConsumed ->
     fst r = None /\ current ks' = Some (keypairFree tr)
     /\ send new = fst t /\ receive new = snd t /\ isInitiator new = true)
  /\ (state h = handshakeResponseCreated ->
        fst r = None /\ next ks' = Some (keypairFree tr)
        /\ receive new = fst t /\ send new = snd t
        /\ isInitiator new = false)
  /\ (fst r = None ->
        (state h = handshakeResponseConsumed
         \/ state h = handshakeResponseCreated)
        /\ chainKey h' = setZero (chainKey h)
        /\ hash h' = setZero (hash h)
        /\ localEphemeral h' = setZero (localEphemeral h)
        /\ isZero (chainKey h') = true
        /\ isZero (hash h') = true
        /\ isZero (localEphemeral h') = true)
  /\ (state h <> handshakeResponseConsumed ->
      state h <> handshakeResponseCreated ->
        fst r = Some (errInvalidState (state h)) /\ snd r = tr).
Proof.
  intros (Hc & Hp & Hn) h t r h' ks' new.
  apply allocated_ne in Hc, Hp, Hn.
  subst r h' ks' new. unfold BeginSymmetricSession. fold h.
  destruct (deriveKeys_cases h)
    as [[Hst ->] | [[Hst ->] | (Hne1 & Hne2 & ->)]]; fold t.
  - pose proof (installKeypair_keypair peer now (fst t) (snd t) true tr)
      as (Hs & Hr & Hi & _).
    pose proof (installKeypair_handshake peer now (fst t) (snd t) true tr)
      as (Hck & Hh & Hle & _).
    pose proof (installKeypair_keypairs peer now (fst t) (snd t) true tr)
      as Hks.
    destruct (installKeypair peer now (fst t) (snd t) true tr)
      as [k tr1] eqn:Hinst.
    assert (k = keypairFree tr) as -> by (now apply (f_equal fst) in Hinst).
    cbn [fst snd] in *.
    pose proof (rotateKeypairs_initiator peer (keypairFree tr) tr1)
      as (Hcur & _).
    rewrite keypairAt_rotateKeypairs by (rewrite Hks; assumption).
    rewrite handshakeOf_rotateKeypairs.
    split_and!.
    + intros _. split_and!; auto.
    + intros Hst'. rewrite Hst in Hst'. discriminate.
    + intros _. fold h in Hck, Hh, Hle.
      rewrite Hck, Hh, Hle, !isZero_setZero. split_and!; auto.
    + intros Hne. contradiction.
  - pose proof (installKeypair_keypair peer now (snd t) (fst t) false tr)
      as (Hs & Hr & Hi & _).
    pose proof (installKeypair_handshake peer now (snd t) (fst t) false tr)
      as (Hck & Hh & Hle & _).
    pose proof (installKeypair_keypairs peer now (snd t) (fst t) false tr)
      as Hks.
    destruct (installKeypair peer now (snd t) (fst t) false tr)
      as [k tr1] eqn:Hinst.
    assert (k = keypairFree tr) as -> by (now apply (f_equal fst) in Hinst).
    cbn [fst snd] in *.
    pose proof (rotateKeypairs_responder peer (keypairFree tr) tr1)
      as (Hnx & _).
    rewrite keypairAt_rotateKeypairs by (rewrite Hks; assumption).
    rewrite handshakeOf_rotateKeypairs.
    split_and!.
    + intros Hst'. rewrite Hst in Hst'. discriminate.
    + intros _. split_and!; auto.
    + intros _. fold h in Hck, Hh, Hle.
      rewrite Hck, Hh, Hle, !isZero_setZero. split_and!; auto.
    + intros _ Hne. contradiction.
  - cbn [fst snd]. split_and!.
    + intros Hst. contradiction.
    + intros Hst. contradiction.
    + intros [=].
    + intros _ _. split; reflexivity.
Qed.

(** *** [ReceivedWithKeypair] *)

(** C5.  [ReceivedWithKeypair] answers [false] and changes nothing when
    [next] is not the received keypair, at the check before the lock
    (state [seen]) or at the one under it (state [tr]).  When [next] is
    the received keypair at both, [previous] becomes the old [current],
    [current] the received keypair, [next] is emptied, the old [previous]
    is deleted, and the answer is [true]. *)
Theorem ReceivedWithKeypair_spec (peer : ploc) (receivedKeypair : option kloc)
    (seen tr : Transport) :
  let ks := keypairsOf tr peer in
  let r := ReceivedWithKeypair peer receivedKeypair seen tr in
  let ks' := keypairsOf (snd r) peer in
  (next (keypairsOf seen peer) <> receivedKeypair -> r = (false, seen))
  /\ (next (keypairsOf seen peer) = receivedKeypair ->
      next ks <> receivedKeypair -> r = (false, tr))
  /\ (next (keypairsOf seen peer) = receivedKeypair ->
      next ks = receivedKeypair ->
        fst r = true
        /\ previous ks' = current ks
        /\ current ks' = receivedKeypair
        /\ next ks' = None
        /\ (forall p, previous ks = Some p -> keypair_deleted (snd r) p)).
Proof.
  intros ks r ks'. subst r ks'. unfold ReceivedWithKeypair. fold ks.
  destruct (decide (next (keypairsOf seen peer) = receivedKeypair))
    as [Hseen | Hseen].
  - rewrite (bool_decide_eq_true_2 _ Hseen). simpl.
    destruct (decide (next ks = receivedKeypair)) as [Hnext | Hnext].
    + rewrite (bool_decide_eq_true_2 _ Hnext). simpl.
      split_and!; try (intros; congruence).
      intros _ _. read_state. split_and!; auto.
      intros p Hp. rewrite Hp.
      do 2 apply keypair_deleted_update_keypairs. apply DeleteKeypair_deleted.
    + rewrite (bool_decide_eq_false_2 _ Hnext). simpl.
      split_and!; try (intros; congruence); auto.
  - rewrite (bool_decide_eq_false_2 _ Hseen). simpl.
    split_and!; try (intros; congruence); auto.
Qed.

(** *** [ConsumeMessageResponse] *)

Lemma deriveResponse_rejected (msg : MessageResponse) (si : StaticIdentity)
    (h : Handshake) :
  response_rejection msg si h -> deriveResponse msg si h = None.
Proof.
  unfold response_rejection, deriveResponse, initiatorHash, initiatorKDF3.
  intros [Hst | [[e He] | [[e He] | (ss1 & ss2 & H1 & H2 & Hopen)]]].
  - rewrite bool_decide_eq_false_2 by assumption. reflexivity.
  - rewrite He. destruct (bool_decide _); reflexivity.
  - rewrite He. destruct (bool_decide _); [| reflexivity]. simpl.
    destruct (sharedSecret (localEphemeral h) (mr_Ephemeral msg)); reflexivity.
  - rewrite H1, H2. destruct (bool_decide _); [| reflexivity]. simpl.
    destruct (KDF3 _ _) as [[c tau] key]. simpl in Hopen.
    rewrite Hopen. reflexivity.
Qed.

Lemma deriveResponse_accepted (msg : MessageResponse) (si : StaticIdentity)
    (h : Handshake) (hash' chainKey' : bytes) :
  response_accepted msg si h hash' chainKey' ->
  deriveResponse msg si h = Some (hash', chainKey').
Proof.
  unfold response_accepted, deriveResponse, initiatorHash, initiatorKDF3.
  intros (Hst & ss1 & ss2 & plaintext & H1 & H2 & Hopen & -> & ->).
  rewrite bool_decide_eq_true_2 by assumption. simpl.
  rewrite H1, H2. destruct (KDF3 _ _) as [[c tau] key]. simpl in *.
  rewrite Hopen. reflexivity.
Qed.

Lemma response_verdict (msg : MessageResponse) (si : StaticIdentity)
    (h : Handshake) :
  response_rejection msg si h
  \/ exists hash' chainKey', response_accepted msg si h hash' chainKey'.
Proof.
  unfold response_rejection, response_accepted.
  destruct (decide (state h = handshakeInitiationCreated)) as [Hst | Hst];
    [| left; left; assumption].
  destruct (sharedSecret (localEphemeral h) (mr_Ephemeral msg))
    as [ss1 | e1] eqn:H1; [| left; right; left; eauto].
  destruct (sharedSecret (privateKey si) (mr_Ephemeral msg))
    as [ss2 | e2] eqn:H2; [| left; right; right; left; eauto].
  destruct (Open (snd (initiatorKDF3 msg h ss1 ss2)) ZeroNonce (mr_Empty msg)
              (initiatorHash msg h ss1 ss2)) as [plaintext |] eqn:Hopen.
  - right. do 2 eexists. split; [assumption |].
    exists ss1, ss2, plaintext. split_and!; eauto.
  - left. do 3 right. exists ss1, ss2. auto.
Qed.

(** C4.  [ConsumeMessageResponse] finds the handshake under
    [msg.Receiver] in the index table.  On a wrong type, an index without
    a handshake, a state other than InitiationCreated, a failed
    Diffie-Hellman or an empty payload that does not authenticate against
    the re-derived transcript hash, it returns no peer and the transport
    (so the handshake's state, hash, chain key and remote index) is
    untouched.  Otherwise it returns the peer of the entry and commits
    the hash, the chain key, [remoteIndex = msg.Sender] and the state
    ResponseConsumed; one of the two always applies. *)
Theorem ConsumeMessageResponse_spec (msg : MessageResponse) (tr : Transport) :
  let lookup := IndexTable_Lookup (mr_Receiver msg) (indexTable tr) in
  let si := staticIdentity tr in
  let r := ConsumeMessageResponse msg tr in
  (mr_Type msg <> MessageResponseType -> r = (None, tr))
  /\ (indexTable tr !! mr_Receiver msg = None -> r = (None, tr))
  /\ (entry_handshake lookup = None -> r = (None, tr))
  /\ (forall hs, entry_handshake lookup = Some hs ->
        let h := handshakeOf tr hs in
        let h' := handshakeOf (snd r) hs in
        (response_rejection msg si h -> r = (None, tr))
        /\ (mr_Type msg = MessageResponseType ->
            forall hash' chainKey',
              response_accepted msg si h hash' chainKey' ->
                fst r = entry_peer lookup
                /\ state h' = handshakeResponseConsumed
                /\ hash h' = hash'
                /\ chainKey h' = chainKey'
                /\ remoteIndex h' = mr_Sender msg
                /\ snd r
                   = update_handshake hs
                       (fun h =>
                          set_state handshakeResponseConsumed
                            (set_remoteIndex (mr_Sender msg)
                               (set_chainKey chainKey' (set_hash hash' h))))
                       tr)
        /\ (response_rejection msg si h
            \/ exists hash' chainKey',
                 response_accepted msg si h hash' chainKey')).
Proof.
  intros lookup si r. subst r. unfold ConsumeMessageResponse. fold lookup si.
  split_and!.
  - intros Hty. apply Z.eqb_neq in Hty. rewrite Hty. reflexivity.
  - intros Hnone. destruct (negb _); [reflexivity |].
    subst lookup. unfold IndexTable_Lookup. rewrite Hnone. reflexivity.
  - intros ->. destruct (negb _); reflexivity.
  - intros hs Hhs. rewrite Hhs. split_and!.
    + intros Hrej. rewrite (deriveResponse_rejected _ _ _ Hrej).
      destruct (negb _); reflexivity.
    + intros Hty hash' chainKey' Hacc.
      apply Z.eqb_eq in Hty. rewrite Hty.
      rewrite (deriveResponse_accepted _ _ _ _ _ Hacc). cbn [negb fst snd].
      rewrite handshakeOf_update_eq. split_and!; reflexivity.
    + apply response_verdict.
Qed.

(** *** [ConsumeMessageInitiation] *)

Variable HandshakeInitationRate : Z.

(** What the routine does, with each outcome of each step spelled out:
    the function read as a decision list. *)
Lemma ConsumeMessageInitiation_unfold (msg : MessageInitiation)
    (clock now : Z) (tr : Transport) :
  ConsumeMessageInitiation HandshakeInitationRate msg clock now tr
  = let si := staticIdentity tr in
    if negb (mi_Type msg =? MessageInitiationType) then (None, tr) else
    match sharedSecret (privateKey si) (mi_Ephemeral msg) with
    | Err _ => (None, tr)
    | Ok ss =>
    match decryptedStatic tr msg ss with
    | None => (None, tr)
    | Some peerPK =>
    match LookupPeer tr peerPK with
    | None => (None, tr)
    | Some peer =>
    let h := handshakeOf tr peer in
    let pss := precomputedStaticStatic h in
    if negb (isRunning (peerAt tr peer)) then (None, tr) else
    if isZero pss then (None, tr) else
    match decryptedTimestamp tr msg ss pss with
    | None => (None, tr)
    | Some timestamp =>
    if negb (Timestamp_After timestamp (lastTimestamp h)) then (None, tr) else
    if Since clock (lastInitiationConsumption h) <=? HandshakeInitationRate
    then (None, tr) else
    (Some peer,
     update_handshake peer (fun h =>
       set_state handshakeInitiationConsumed
         ((fun h => if Time_After now (lastInitiationConsumption h)
                    then set_lastInitiationConsumption now h else h)
            ((fun h => if Timestamp_After timestamp (lastTimestamp h)
                       then set_lastTimestamp timestamp h else h)
               (set_remoteEphemeral (mi_Ephemeral msg)
                  (set_remoteIndex (mi_Sender msg)
                     (set_chainKey (responderChainKey2 msg ss pss)
                        (set_hash (responderHash3 tr msg) h))))))) tr)
    end end end end.
Proof.
  unfold ConsumeMessageInitiation, decryptedStatic, decryptedTimestamp,
    responderChainKey2, responderChainKey1, responderHash3, responderHash2,
    responderHash1.
  cbv zeta.
  destruct (negb (mi_Type msg =? MessageInitiationType)); [reflexivity |].
  destruct (sharedSecret _ _) as [ss | e]; [| reflexivity].
  destruct (KDF2 (mixKey InitialChainKey (mi_Ephemeral msg)) ss)
    as [chainKey1 key1]. cbn [fst snd].
  destruct (Open key1 _ _ _) as [peerPK |]; [| reflexivity].
  destruct (LookupPeer tr peerPK) as [peer |]; [| reflexivity].
  destruct (negb (isRunning (peerAt tr peer))); [reflexivity |].
  destruct (isZero _); [reflexivity |].
  destruct (KDF2 chainKey1 _) as [chainKey2 key2]. cbn [fst snd].
  destruct (Open key2 _ _ _) as [timestamp |]; reflexivity.
Qed.

(** C1 (amended).  With a rate that fits a [time.Duration] and a clock
    that does not run backwards: [ConsumeMessageInitiation] returns no
    peer exactly when the type is not 1, the Diffie-Hellman of the local
    static key with the message's ephemeral key fails, the static key does
    not open, no peer has the decrypted key, the peer is not running, its
    precomputed secret is all-zero, the timestamp does not open, the
    decrypted timestamp is not after [lastTimestamp], or the time since
    [lastInitiationConsumption] is at most the rate.  A rejection leaves
    the transport as it was.  A success commits hash, chain key, remote
    index, remote ephemeral, the decrypted timestamp (which is after the
    old [lastTimestamp]) and the commit time, and sets the state to
    InitiationConsumed, on that peer only. *)
Theorem ConsumeMessageInitiation_spec (msg : MessageInitiation)
    (clock now : Z) (tr : Transport) :
  0 <= HandshakeInitationRate < maxDuration ->
  clock <= now ->
  let si := staticIdentity tr in
  let r := ConsumeMessageInitiation HandshakeInitationRate msg clock now tr in
  (fst r = None <-> actual_rejection HandshakeInitationRate msg clock tr)
  /\ (fst r = None -> snd r = tr)
  /\ (forall peer, fst r = Some peer ->
        let h := handshakeOf tr peer in
        let pss := precomputedStaticStatic h in
        exists ss timestamp,
          sharedSecret (privateKey si) (mi_Ephemeral msg) = Ok ss
          /\ decryptedTimestamp tr msg ss pss = Some timestamp
          /\ Timestamp_After timestamp (lastTimestamp h) = true
          /\ HandshakeInitationRate < clock - lastInitiationConsumption h
          /\ handshakeOf (snd r) peer
             = {| state := handshakeInitiationConsumed;
                  hash := responderHash3 tr msg;
                  chainKey := responderChainKey2 msg ss pss;
                  presharedKey := presharedKey h;
                  localEphemeral := localEphemeral h;
                  localIndex := localIndex h;
                  remoteIndex := mi_Sender msg;
                  remoteStatic := remoteStatic h;
                  remoteEphemeral := mi_Ephemeral msg;
                  precomputedStaticStatic := pss;
                  lastTimestamp := timestamp;
                  lastInitiationConsumption := now;
                  lastSentHandshake := lastSentHandshake h |}
          /\ (forall q, q <> peer ->
                handshakeOf (snd r) q = handshakeOf tr q)
          /\ indexTable (snd r) = indexTable tr).
Proof.
  intros Hrate Hclock si r. subst r.
  rewrite ConsumeMessageInitiation_unfold. cbv zeta. fold si.
  unfold actual_rejection, rejection. cbv zeta. fold si.
  assert (Hdur : minDuration <= HandshakeInitationRate < maxDuration)
    by (unfold minDuration in *; lia).
  destruct (Z.eqb_spec (mi_Type msg) MessageInitiationType) as [Hty | Hty];
    cbn [negb]; [| cbn [fst snd]; split_and!; [tauto | done | done]].
  destruct (sharedSecret (privateKey si) (mi_Ephemeral msg))
    as [ss | e] eqn:Hss;
    [| cbn [fst snd]; split_and!; [split; eauto 6 | done | done]].
  destruct (decryptedStatic tr msg ss) as [peerPK |] eqn:Hstatic;
    [| cbn [fst snd]; split_and!; [split; eauto 8 | done | done]].
  destruct (LookupPeer tr peerPK) as [peer |] eqn:Hpeer;
    [| cbn [fst snd]; split_and!; [split; eauto 10 | done | done]].
  destruct (isRunning (peerAt tr peer)) eqn:Hrun; cbn [negb];
    [| cbn [fst snd]; split_and!; [split; [intros _ | done] | done | done];
       right; right; exists ss; split; [done |]; right; exists peerPK;
       split; [done |]; right; exists peer; split; [done |]; left; done].
  destruct (isZero (precomputedStaticStatic (handshakeOf tr peer))) eqn:Hzero;
    [cbn [fst snd]; split_and!; [split; [intros _ | done] | done | done];
     right; right; exists ss; split; [done |]; right; exists peerPK;
     split; [done |]; right; exists peer; split; [done |]; right; left; done
    |].
  destruct (decryptedTimestamp tr msg ss
              (precomputedStaticStatic (handshakeOf tr peer)))
    as [timestamp |] eqn:Hts;
    [| cbn [fst snd]; split_and!; [split; [intros _ | done] | done | done];
       right; right; exists ss; split; [done |]; right; exists peerPK;
       split; [done |]; right; exists peer; split; [done |];
       right; right; left; done].
  destruct (Timestamp_After timestamp (lastTimestamp (handshakeOf tr peer)))
    eqn:Hafter; cbn [negb];
    [| cbn [fst snd]; split_and!; [split; [intros _ | done] | done | done];
       right; right; exists ss; split; [done |]; right; exists peerPK;
       split; [done |]; right; exists peer; split; [done |];
       right; right; right; exists timestamp; split; [done |]; left; done].
  rewrite (Since_le _ _ _ Hdur).
  destruct (Z.leb_spec
              (clock - lastInitiationConsumption (handshakeOf tr peer))
              HandshakeInitationRate) as [Hflood | Hflood];
    [cbn [fst snd]; split_and!; [split; [intros _ | done] | done | done];
     right; right; exists ss; split; [done |]; right; exists peerPK;
     split; [done |]; right; exists peer; split; [done |];
     right; right; right; exists timestamp; split; [done |]; right; done
    |].
  (* accepted *)
  cbn [fst snd]. split_and!.
  - split; [discriminate |]. intros Hrej. exfalso.
    destruct Hrej as [H | [[_ [e H]] | (ss' & Hss' & H)]];
      [contradiction | congruence |].
    assert (ss' = ss) as -> by congruence.
    destruct H as [H | (pk' & Hpk' & H)]; [congruence |].
    assert (pk' = peerPK) as -> by congruence.
    destruct H as [H | (peer' & Hpeer' & H)]; [congruence |].
    assert (peer' = peer) as -> by congruence.
    destruct H as [H | [H | [H | (ts' & Hts' & H)]]]; try congruence.
    assert (ts' = timestamp) as -> by congruence.
    destruct H as [H | H]; [congruence | lia].
  - discriminate.
  - intros peer' [= <-]. exists ss, timestamp.
    rewrite handshakeOf_update_eq. cbn.
    rewrite Hafter. cbn.
    assert (Hnow : Time_After now
                     (lastInitiationConsumption (handshakeOf tr peer)) = true)
      by (apply Z.ltb_lt; lia).
    rewrite Hnow. cbn. split_and!; try done.
    intros q Hq. rewrite handshakeOf_update, decide_False by congruence.
    reflexivity.
Qed.

(** *** The index table *)

Lemma to_uint32_range (z : Z) : 0 <= to_uint32 z < 2 ^ 32.
Proof. unfold to_uint32. apply Z.mod_pos_bound. lia. Qed.

(** The allocator either binds a fresh 32-bit index to the handshake or
    reports the failure of the random source and leaves the table alone. *)
Lemma NewIndexForHandshake_spec (peer hs : ploc) (draws : list Z)
    (t : gmap Z IndexTableEntry) :
  let alloc := IndexTable_NewIndexForHandshake peer hs draws t in
  let index := fst (fst alloc) in
  match snd (fst alloc) with
  | None =>
      0 <= index < 2 ^ 32
      /\ t !! index = None
      /\ (exists r, r ∈ draws /\ index = to_uint32 r)
      /\ snd alloc
         = <[index := {| entry_peer := Some peer;
                         entry_handshake := Some hs;
                         entry_keypair := None |}]> t
  | Some _ =>
      snd alloc = t /\ forall r, r ∈ draws -> is_Some (t !! to_uint32 r)
  end.
Proof.
  induction draws as [| r draws IH]; cbn.
  - split.
    + reflexivity.
    + intros r0 Hr. apply elem_of_nil in Hr. contradiction.
  - destruct (t !! to_uint32 r) as [e |] eqn:Hr; cbn.
    + cbv zeta in IH.
      destruct (snd (fst (IndexTable_NewIndexForHandshake peer hs draws t))).
      * destruct IH as [Ht Hall]. split; [assumption |].
        intros r' [-> | Hr']%elem_of_cons; [eauto | auto].
      * destruct IH as (Hrange & Hfree & (r' & Hr' & Hidx) & Ht).
        split; [exact Hrange |]. split; [exact Hfree |].
        split; [| exact Ht].
        exists r'. split; [apply elem_of_cons; auto | assumption].
    + split; [apply to_uint32_range |]. split; [assumption |].
      split; [| reflexivity].
      exists r. split; [apply elem_of_cons; auto | reflexivity].
Qed.

(** One free draw is enough for the allocator to succeed. *)
Lemma NewIndexForHandshake_succeeds (peer hs : ploc) (draws : list Z)
    (t : gmap Z IndexTableEntry) :
  (exists r, r ∈ draws /\ t !! to_uint32 r = None) ->
  snd (fst (IndexTable_NewIndexForHandshake peer hs draws t)) = None.
Proof.
  intros (r & Hr & Hfree).
  pose proof (NewIndexForHandshake_spec peer hs draws t) as Hspec.
  cbv zeta in Hspec.
  destruct (snd (fst _)) as [e |]; [| reflexivity].
  destruct Hspec as [_ Hall]. specialize (Hall r Hr).
  rewrite Hfree in Hall. destruct Hall; discriminate.
Qed.

(** *** [CreateMessageResponse] *)

Lemma indexTable_update_handshake (p : ploc) (f : Handshake -> Handshake)
    (tr : Transport) :
  indexTable (update_handshake p f tr) = indexTable tr.
Proof. reflexivity. Qed.

Lemma indexTable_set_indexTable t (tr : Transport) :
  indexTable (set_indexTable t tr) = t.
Proof. reflexivity. Qed.

(** Running a monadic routine: unfold the plumbing, keep the state
    operations folded, and read the handshake back through the updates. *)
Ltac run_M :=
  unfold check, try, fail, modifyH, modify, getH, gets;
  unfold mbind, M_bind, mret, M_ret; cbn beta.

Ltac read_handshake :=
  repeat first
    [ rewrite handshakeOf_update_eq
    | rewrite handshakeOf_set_indexTable
    | rewrite indexTable_update_handshake
    | rewrite indexTable_set_indexTable ];
  cbn [fst snd state hash chainKey presharedKey localEphemeral localIndex
       remoteIndex remoteStatic remoteEphemeral precomputedStaticStatic
       lastTimestamp lastInitiationConsumption lastSentHandshake
       set_state set_hash set_chainKey set_localEphemeral set_localIndex
       Handshake_mixHash Handshake_mixKey
       mr_Type mr_Sender mr_Receiver mi_Type mi_Sender].


(** *** [CreateMessageInitiation] *)



End Engine.


(** *** The engine at work on the small instance *)

Import Toy.

(** The handshake runs to its end, and the two sides agree on the keys. *)
Example handshake_completes :
  fst bob1 = Some 0%nat
  /\ fst alice2 = Some 0%nat
  /\ fst alice3 = None /\ fst bob3 = None
  /\ keypairsOf (snd alice3) 0%nat
     = {| current := Some 0%nat; previous := None; next := None |}
  /\ keypairsOf (snd bob3) 0%nat
     = {| current := None; previous := None; next := Some 0%nat |}
  /\ send (keypairAt (snd alice3) 0%nat) = receive (keypairAt (snd bob3) 0%nat)
  /\ receive (keypairAt (snd alice3) 0%nat) = send (keypairAt (snd bob3) 0%nat)
  /\ kp_remoteIndex (keypairAt (snd alice3) 0%nat)
     = kp_localIndex (keypairAt (snd bob3) 0%nat).
Proof. vm_compute. repeat split. Qed.

(** The first inbound packet under [next] promotes it on the responder. *)
Example responder_promotes_next :
  let r := ReceivedWithKeypair 0%nat (Some 0%nat) (snd bob3) (snd bob3) in
  fst r = true
  /\ keypairsOf (snd r) 0%nat
     = {| current := Some 0%nat; previous := None; next := None |}.
Proof. vm_compute. split; reflexivity. Qed.

(** A rekey on the initiator keeps the old session as [previous]. *)
Example initiator_rekeys :
  let r := BeginSymmetricSession 0%nat wall (snd alice5) in
  fst r = None
  /\ keypairsOf (snd r) 0%nat
     = {| current := Some 1%nat; previous := Some 0%nat; next := None |}.
Proof. vm_compute. split; reflexivity. Qed.

(** The allocator retries on a collision: 4242 is taken by the first
    session, so the second initiation carries 9001. *)
Example allocator_retries : mi_Sender secondInitiation = 9001.
Proof. reflexivity. Qed.

(** C3 at work: the initiator's rekey.  The first session sits in
    [current], allocated before the call, and the handshake is in state
    ResponseConsumed. *)
Lemma BeginSymmetricSession_keys_witness :
  let peer := 0%nat in
  let tr := snd alice5 in
  let h := handshakeOf tr peer in
  let t := KDF2 (chainKey h) [] in
  let r := BeginSymmetricSession peer wall tr in
  let h' := handshakeOf (snd r) peer in
  let ks' := keypairsOf (snd r) peer in
  let new := keypairAt (snd r) (keypairFree tr) in
  keypairs_allocated tr peer
  /\ state h = handshakeResponseConsumed
  /\ (state h = handshakeResponseConsumed ->
        fst r = None /\ current ks' = Some (keypairFree tr)
        /\ send new = fst t /\ receive new = snd t /\ isInitiator new = true)
  /\ (state h = handshakeResponseCreated ->
        fst r = None /\ next ks' = Some (keypairFree tr)
        /\ receive new = fst t /\ send new = snd t
        /\ isInitiator new = false)
  /\ (fst r = None ->
        (state h = handshakeResponseConsumed
         \/ state h = handshakeResponseCreated)
        /\ chainKey h' = setZero (chainKey h)
        /\ hash h' = setZero (hash h)
        /\ localEphemeral h' = setZero (localEphemeral h)
        /\ isZero (chainKey h') = true
        /\ isZero (hash h') = true
        /\ isZero (localEphemeral h') = true)
  /\ (state h <> handshakeResponseConsumed ->
      state h <> handshakeResponseCreated ->
        fst r = Some (errInvalidState (state h)) /\ snd r = tr).
Proof.
  intros peer tr h t r h' ks' new.
  assert (Halloc : keypairs_allocated tr peer).
  { unfold keypairs_allocated. vm_compute. split_and!; [lia | exact I | exact I]. }
  split; [exact Halloc |]. split; [reflexivity |].
  exact (BeginSymmetricSession_keys peer wall tr Halloc).
Defined.

(** C1 (amended) at work: the second initiation reaches [bob] one
    nanosecond after the rate interval has passed, and is accepted. *)
Lemma ConsumeMessageInitiation_spec_witness :
  let msg := secondInitiation in
  let clock := wall + rate + 1 in
  let now := wall + rate + 2 in
  let tr := snd bob3 in
  let si := staticIdentity tr in
  let r := ConsumeMessageInitiation rate msg clock now tr in
  0 <= rate < maxDuration
  /\ clock <= now
  /\ fst r = Some 0%nat
  /\ (fst r = None <-> actual_rejection rate msg clock tr)
  /\ (fst r = None -> snd r = tr)
  /\ (forall peer, fst r = Some peer ->
        let h := handshakeOf tr peer in
        let pss := precomputedStaticStatic h in
        exists ss timestamp,
          sharedSecret (privateKey si) (mi_Ephemeral msg) = Ok ss
          /\ decryptedTimestamp tr msg ss pss = Some timestamp
          /\ Timestamp_After timestamp (lastTimestamp h) = true
          /\ rate < clock - lastInitiationConsumption h
          /\ handshakeOf (snd r) peer
             = {| state := handshakeInitiationConsumed;
                  hash := responderHash3 tr msg;
                  chainKey := responderChainKey2 msg ss pss;
                  presharedKey := presharedKey h;
                  localEphemeral := localEphemeral h;
                  localIndex := localIndex h;
                  remoteIndex := mi_Sender msg;
                  remoteStatic := remoteStatic h;
                  remoteEphemeral := mi_Ephemeral msg;
                  precomputedStaticStatic := pss;
                  lastTimestamp := timestamp;
                  lastInitiationConsumption := now;
                  lastSentHandshake := lastSentHandshake h |}
          /\ (forall q, q <> peer ->
                handshakeOf (snd r) q = handshakeOf tr q)
          /\ indexTable (snd r) = indexTable tr).
Proof.
  intros msg clock now tr si r.
  assert (Hrate : 0 <= rate < maxDuration) by (vm_compute; split; congruence).
  assert (Hclock : clock <= now) by (vm_compute; congruence).
  split; [exact Hrate |]. split; [exact Hclock |]. split; [reflexivity |].
  exact (ConsumeMessageInitiation_spec rate msg clock now tr Hrate Hclock).
Defined.

(** C1, as worded, fails at the boundary: the second initiation reaches
    [bob] exactly one rate interval after he consumed the first.  None of
    the listed conditions holds (the elapsed time is not below the rate),
    yet no peer is returned. *)
Lemma ConsumeMessageInitiation_flood_boundary :
  let r := ConsumeMessageInitiation rate secondInitiation
             (wall + rate) (wall + rate) (snd bob3) in
  fst r = None
  /\ lastInitiationConsumption (handshakeOf (snd bob3) 0%nat) = wall
  /\ ~ claimed_rejection rate secondInitiation (wall + rate) (snd bob3).
Proof.
  cbv zeta. split_and!; [vm_compute; reflexivity | vm_compute; reflexivity |].
  unfold claimed_rejection, rejection. cbv zeta.
  intros [H | [[H _] | (ss & Hss & H)]].
  - apply H. reflexivity.
  - discriminate.
  - vm_compute in Hss. injection Hss as <-.
    destruct H as [H | (pk & Hpk & H)]; [vm_compute in H; discriminate |].
    vm_compute in Hpk. injection Hpk as <-.
    destruct H as [H | (peer & Hpeer & H)]; [vm_compute in H; discriminate |].
    vm_compute in Hpeer. injection Hpeer as <-.
    cbv zeta in H.
    destruct H as [H | [H | [H | (ts & Hts & H)]]].
    + vm_compute in H. discriminate.
    + vm_compute in H. discriminate.
    + vm_compute in H. discriminate.
    + vm_compute in Hts. injection Hts as <-.
      destruct H as [H | H]; vm_compute in H; discriminate.
Qed.

(** One nanosecond later the same message is accepted. *)
Example ConsumeMessageInitiation_after_boundary :
  fst (ConsumeMessageInitiation rate secondInitiation
         (wall + rate + 1) (wall + rate + 1) (snd bob3)) = Some 0%nat.
Proof. vm_compute. reflexivity. Qed.



(** When the ephemeral key cannot be generated, the error of
    [types.NewPrivateKey] is returned as it is (lines 217-220). *)
Example CreateMessageInitiation_key_generation_error :
  let failure := errExternal "crypto/rand: read failed" in
  let r := CreateMessageInitiation 0%nat (repeat 0 32, Some failure)
             stamp [4242] unkeyed in
  fst r = Err failure
  /\ state (handshakeOf (snd r) 0%nat) = state (handshakeOf unkeyed 0%nat).
Proof. cbv zeta. split; vm_compute; reflexivity. Qed.

(** With the key generated, the zero secret is what stops the routine. *)
Example CreateMessageInitiation_zero_secret :
  fst (CreateMessageInitiation 0%nat (ephA, None) stamp [4242] unkeyed)
  = Err errInvalidPublicKey.
Proof. vm_compute. reflexivity. Qed.


End NoiseProofs.

(* ===================================================================== *)
(** * Further properties                                                  *)
(* ===================================================================== *)

(** ** The peer directory: success, lookups and what a run of calls keeps *)

Module PeerDirectoryLaws.

Import PeerDirectory PeerDirectoryProofs.

Section Directory.

Context {Addr : Type} `{Countable Addr}.

Implicit Types (pd : peerDirectory Addr) (addrs : list Addr).

Lemma AddPeer_table pd name publicKey addrs :
  fromPeerAddress (snd (AddPeer pd name publicKey addrs))
  = snd (register_addrs publicKey addrs (fromPeerAddress pd))
  /\ fst (AddPeer pd name publicKey addrs)
     = fst (register_addrs publicKey addrs (fromPeerAddress pd)).
Proof.
  unfold AddPeer.
  destruct (register_addrs publicKey addrs (fromPeerAddress pd)); auto.
Qed.

Lemma AddPeer_names pd name publicKey addrs :
  peerNames (snd (AddPeer pd name publicKey addrs))
  = if decide (name = ""%string) then peerNames pd
    else <[name := publicKey]> (peerNames pd).
Proof.
  unfold AddPeer.
  destruct (register_addrs publicKey addrs (fromPeerAddress pd)); auto.
Qed.

Lemma AddPeer_addresses pd name publicKey addrs :
  peerAddresses (snd (AddPeer pd name publicKey addrs))
  = <[publicKey := addrs]> (peerAddresses pd).
Proof.
  unfold AddPeer.
  destruct (register_addrs publicKey addrs (fromPeerAddress pd)); auto.
Qed.

(** Whatever the loop does, an address that had an owner keeps it, and an
    address that gets one gets [publicKey]. *)
Lemma register_addrs_lookup publicKey addrs tbl (a : Addr) :
  snd (register_addrs publicKey addrs tbl) !! a = tbl !! a
  \/ (tbl !! a = None
      /\ a ∈ addrs
      /\ snd (register_addrs publicKey addrs tbl) !! a = Some publicKey).
Proof.
  pose proof (register_addrs_spec publicKey addrs tbl) as Hspec.
  destruct (register_addrs publicKey addrs tbl) as [[e |] tbl']; simpl.
  - destruct Hspec as (pre & dup & post & -> & _ & -> & _ & Hfree & _).
    rewrite registered_lookup.
    destruct (decide (a ∈ pre)) as [Hin | Hnin]; [right | left; reflexivity].
    split_and!; [auto | | reflexivity].
    apply elem_of_app. left. assumption.
  - destruct Hspec as (-> & _ & Hfree).
    rewrite registered_lookup.
    destruct (decide (a ∈ addrs)) as [Hin | Hnin]; [right | left; reflexivity].
    split_and!; auto.
Qed.

(** X1.  [AddPeer] returns no error exactly when the addresses are
    pairwise distinct and none of them is registered yet. *)
Theorem AddPeer_succeeds_iff pd (name : string) (publicKey : NoisePublicKey)
    addrs :
  fst (AddPeer pd name publicKey addrs) = None
  <-> NoDup addrs /\ forall a, a ∈ addrs -> fromPeerAddress pd !! a = None.
Proof.
  destruct (AddPeer_table pd name publicKey addrs) as [_ ->].
  pose proof (register_addrs_spec publicKey addrs (fromPeerAddress pd))
    as Hspec.
  destruct (register_addrs publicKey addrs (fromPeerAddress pd))
    as [[e |] tbl']; simpl.
  - split; [discriminate |]. intros [Hnd Hfree]. exfalso.
    destruct Hspec as (pre & dup & post & -> & _ & _ & _ & _ & Hdup).
    destruct Hdup as [[k Hk] | Hin].
    + rewrite Hfree in Hk; [discriminate |].
      apply elem_of_app. right. apply elem_of_cons. auto.
    + apply list.NoDup_app in Hnd as (_ & Hdisj & _).
      apply (Hdisj dup Hin). apply elem_of_cons. auto.
  - split; [| reflexivity]. intros _. tauto.
Qed.

(** X2.  After a successful [AddPeer] under a non-empty name, the name
    resolves to the address list given, each of the addresses resolves to
    the key, and every other address resolves as before. *)
Theorem AddPeer_then_lookup pd (name : string) (publicKey : NoisePublicKey)
    addrs :
  fst (AddPeer pd name publicKey addrs) = None ->
  name <> ""%string ->
  let pd' := snd (AddPeer pd name publicKey addrs) in
  LookupPeerAddressesByName pd' name = Some addrs
  /\ (forall a, a ∈ addrs -> LookupPeerByAddress pd' a = Some publicKey)
  /\ (forall a, a ∉ addrs ->
        LookupPeerByAddress pd' a = LookupPeerByAddress pd a).
Proof.
  intros Hok Hname pd'. subst pd'.
  unfold LookupPeerAddressesByName, LookupPeerByAddress.
  rewrite AddPeer_names, AddPeer_addresses, decide_False by assumption.
  rewrite lookup_insert_eq, lookup_insert_eq.
  destruct (AddPeer_table pd name publicKey addrs) as [-> Hfst].
  rewrite Hfst in Hok.
  pose proof (register_addrs_spec publicKey addrs (fromPeerAddress pd))
    as Hspec.
  destruct (register_addrs publicKey addrs (fromPeerAddress pd))
    as [[e |] tbl']; [discriminate |]. simpl.
  destruct Hspec as (-> & _ & _).
  split_and!; [reflexivity | |]; intros a Ha; rewrite registered_lookup.
  - rewrite decide_True by assumption. reflexivity.
  - rewrite decide_False by assumption. reflexivity.
Qed.

(** X3.  [AddPeer] never takes an address away from its owner: an address
    that resolves to a key before the call resolves to the same key after
    it, whether the call succeeds or fails. *)
Theorem AddPeer_keeps_owner pd (name : string) (publicKey : NoisePublicKey)
    addrs (a : Addr) (owner : NoisePublicKey) :
  LookupPeerByAddress pd a = Some owner ->
  LookupPeerByAddress (snd (AddPeer pd name publicKey addrs)) a = Some owner.
Proof.
  unfold LookupPeerByAddress. intros Howner.
  destruct (AddPeer_table pd name publicKey addrs) as [-> _].
  destruct (register_addrs_lookup publicKey addrs (fromPeerAddress pd) a)
    as [-> | (Hnone & _)]; congruence.
Qed.

(** X4.  A successful [AddPeer] for a key replaces the key's address list
    and does not merge it: the addresses the key owned before are none of
    them in the new list, yet each still resolves to the key. *)
Theorem AddPeer_leaves_stale_addresses pd (name : string)
    (publicKey : NoisePublicKey) addrs (a : Addr) :
  fst (AddPeer pd name publicKey addrs) = None ->
  LookupPeerByAddress pd a = Some publicKey ->
  let pd' := snd (AddPeer pd name publicKey addrs) in
  peerAddresses pd' !! publicKey = Some addrs
  /\ (a ∉ addrs)
  /\ LookupPeerByAddress pd' a = Some publicKey.
Proof.
  intros Hok Howner pd'. subst pd'. unfold LookupPeerByAddress in *.
  rewrite AddPeer_addresses, lookup_insert_eq.
  destruct (AddPeer_table pd name publicKey addrs) as [-> Hfst].
  rewrite Hfst in Hok.
  pose proof (register_addrs_spec publicKey addrs (fromPeerAddress pd))
    as Hspec.
  destruct (register_addrs publicKey addrs (fromPeerAddress pd))
    as [[e |] tbl']; [discriminate |]. simpl.
  destruct Hspec as (-> & _ & Hfree).
  assert (Hnin : a ∉ addrs).
  { intros Hin. rewrite (Hfree a Hin) in Howner. discriminate. }
  split_and!; [reflexivity | assumption |].
  rewrite registered_lookup, decide_False by assumption. assumption.
Qed.

(** The invariant a run of calls keeps. *)
Lemma AddPeer_invariant pd (name : string) (publicKey : NoisePublicKey)
    addrs :
  let inv := fun pd : peerDirectory Addr =>
    peerNames pd !! ""%string = None
    /\ (forall n k, peerNames pd !! n = Some k ->
          is_Some (peerAddresses pd !! k))
    /\ (forall a k, fromPeerAddress pd !! a = Some k ->
          is_Some (peerAddresses pd !! k)) in
  inv pd -> inv (snd (AddPeer pd name publicKey addrs)).
Proof.
  intros inv (Hempty & Hnames & Haddrs). subst inv. cbv beta.
  rewrite AddPeer_names, AddPeer_addresses.
  destruct (AddPeer_table pd name publicKey addrs) as [-> _].
  split_and!.
  - destruct (decide (name = ""%string)) as [-> | Hne]; [assumption |].
    rewrite lookup_insert_ne by assumption. assumption.
  - intros n k Hn.
    destruct (decide (publicKey = k)) as [-> | Hk];
      [rewrite lookup_insert_eq; eauto |].
    rewrite lookup_insert_ne by assumption. apply (Hnames n).
    destruct (decide (name = ""%string)); [assumption |].
    rewrite lookup_insert in Hn. case_decide; [congruence | assumption].
  - intros a k Ha.
    destruct (decide (publicKey = k)) as [-> | Hk];
      [rewrite lookup_insert_eq; eauto |].
    rewrite lookup_insert_ne by assumption. apply (Haddrs a).
    destruct (register_addrs_lookup publicKey addrs (fromPeerAddress pd) a)
      as [Heq | (_ & _ & Hnew)]; congruence.
Qed.

(** X5.  Whatever calls of [AddPeer] were made on a new directory, failed
    ones included: the empty name is not registered, every registered name
    resolves to an address list, and every registered address belongs to a
    key that has an address list. *)
Theorem AddPeers_consistent
    (calls : list (string * NoisePublicKey * list Addr)) :
  let pd := AddPeers newPeerDirectory calls in
  LookupPeerAddressesByName pd ""%string = None
  /\ (forall n k, peerNames pd !! n = Some k ->
        exists addrs, LookupPeerAddressesByName pd n = Some addrs)
  /\ (forall a k, LookupPeerByAddress pd a = Some k ->
        exists addrs, peerAddresses pd !! k = Some addrs).
Proof.
  cbv zeta.
  assert (Hinv : forall pd : peerDirectory Addr,
    (peerNames pd !! ""%string = None
     /\ (forall n k, peerNames pd !! n = Some k ->
           is_Some (peerAddresses pd !! k))
     /\ (forall a k, fromPeerAddress pd !! a = Some k ->
           is_Some (peerAddresses pd !! k))) ->
    let pd' := AddPeers pd calls in
    peerNames pd' !! ""%string = None
    /\ (forall n k, peerNames pd' !! n = Some k ->
          is_Some (peerAddresses pd' !! k))
    /\ (forall a k, fromPeerAddress pd' !! a = Some k ->
          is_Some (peerAddresses pd' !! k))).
  { induction calls as [| [[name publicKey] addrs] calls IH]; intros pd Hpd.
    - exact Hpd.
    - apply IH. apply (AddPeer_invariant pd name publicKey addrs Hpd). }
  destruct (Hinv newPeerDirectory) as (Hempty & Hnames & Haddrs).
  { simpl. split_and!; intros; simplify_map_eq. reflexivity. }
  unfold LookupPeerAddressesByName, LookupPeerByAddress.
  split_and!.
  - rewrite Hempty. reflexivity.
  - intros n k Hn. rewrite Hn. apply (Hnames n k Hn).
  - intros a k Ha. apply (Haddrs a k Ha).
Qed.

End Directory.

(** X2 at work: a gateway with two addresses. *)
Lemma AddPeer_then_lookup_witness :
  let pk : NoisePublicKey := repeat 7 32 in
  let addrs : list Z := [167772161; 167772162] in
  let pd' := snd (AddPeer newPeerDirectory "gateway" pk addrs) in
  LookupPeerAddressesByName pd' "gateway" = Some addrs
  /\ (forall a, a ∈ addrs -> LookupPeerByAddress pd' a = Some pk)
  /\ (forall a, a ∉ addrs ->
        LookupPeerByAddress pd' a = LookupPeerByAddress newPeerDirectory a).
Proof.
  intros pk addrs pd'.
  apply (AddPeer_then_lookup newPeerDirectory "gateway" pk addrs);
    [reflexivity | discriminate].
Defined.

(** X3 at work: a second peer claims an address of the first and fails;
    the address stays with the first. *)
Lemma AddPeer_keeps_owner_witness :
  let pk1 : NoisePublicKey := repeat 7 32 in
  let pk2 : NoisePublicKey := repeat 9 32 in
  let pd := snd (AddPeer newPeerDirectory "gateway" pk1 [167772161]) in
  LookupPeerByAddress pd 167772161 = Some pk1
  /\ LookupPeerByAddress
       (snd (AddPeer pd "laptop" pk2 [167772162; 167772161])) 167772161
     = Some pk1.
Proof.
  intros pk1 pk2 pd.
  assert (Howner : LookupPeerByAddress pd 167772161 = Some pk1)
    by reflexivity.
  split; [exact Howner |].
  exact (AddPeer_keeps_owner pd "laptop" pk2 [167772162; 167772161]
           167772161 pk1 Howner).
Defined.

(** X4 at work: the gateway is added again with a new address; the old one
    is gone from its list and still resolves to it. *)
Lemma AddPeer_leaves_stale_addresses_witness :
  let pk : NoisePublicKey := repeat 7 32 in
  let pd := snd (AddPeer newPeerDirectory "gateway" pk [167772161]) in
  let pd' := snd (AddPeer pd "gateway" pk [167772162]) in
  fst (AddPeer pd "gateway" pk [167772162]) = None
  /\ LookupPeerByAddress pd 167772161 = Some pk
  /\ peerAddresses pd' !! pk = Some [167772162]
  /\ (167772161 ∉ [167772162])
  /\ LookupPeerByAddress pd' 167772161 = Some pk.
Proof.
  intros pk pd pd'.
  assert (Hok : fst (AddPeer pd "gateway" pk [167772162]) = None)
    by reflexivity.
  assert (Howner : LookupPeerByAddress pd 167772161 = Some pk)
    by reflexivity.
  split; [exact Hok |]. split; [exact Howner |].
  exact (AddPeer_leaves_stale_addresses pd "gateway" pk [167772162]
           167772161 Hok Howner).
Defined.

End PeerDirectoryLaws.

(** ** Configuration kinds and wire constants *)

Module ConfigLaws.

Import Config.

(** X6.  The configuration [GetConfigByKind] returns for a kind reports
    that very kind and the package's API version, and is the empty
    document. *)
Theorem GetConfigByKind_round_trip (k : string) (c : Config) :
  GetConfigByKind k = Ok c ->
  GetKind c = k /\ GetAPIVersion c = ApiVersion /\ c = zeroConfig.
Proof.
  unfold GetConfigByKind. destruct (String.eqb_spec k "Config") as [-> | Hk].
  - intros [= <-]. split_and!; reflexivity.
  - discriminate.
Qed.

Lemma GetConfigByKind_round_trip_witness :
  GetConfigByKind "Config" = Ok zeroConfig
  /\ GetKind zeroConfig = "Config"%string
  /\ GetAPIVersion zeroConfig = ApiVersion
  /\ zeroConfig = zeroConfig.
Proof.
  split; [reflexivity |].
  exact (GetConfigByKind_round_trip "Config" zeroConfig eq_refl).
Defined.

End ConfigLaws.

Module WireLaws.

Import Wire.

(** X7.  [MessageHandshakeSize] is the size of the largest of the three
    handshake messages; a keepalive is an empty transport message, 32
    bytes, and no sealed transport message is shorter than that. *)
Theorem handshake_and_keepalive_sizes :
  MessageHandshakeSize
  = Z.max MessageInitiationSize
      (Z.max MessageResponseSize MessageCookieReplySize)
  /\ MessageKeepaliveSize = MessageTransportSize
  /\ MessageKeepaliveSize = 32
  /\ (forall tag : bytes,
        Z.of_nat (length tag) = poly1305_TagSize ->
        transport_wire_size ([] ++ tag) = MessageKeepaliveSize)
  /\ (forall ciphertext tag : bytes,
        Z.of_nat (length tag) = poly1305_TagSize ->
        MessageTransportSize <= transport_wire_size (ciphertext ++ tag)).
Proof.
  split_and!; try reflexivity.
  - intros tag Htag. unfold transport_wire_size. simpl length.
    rewrite Htag. reflexivity.
  - intros ciphertext tag Htag. unfold transport_wire_size.
    rewrite length_app, Nat2Z.inj_add, Htag.
    unfold MessageTransportSize, MessageTransportHeaderSize,
      MessageTransportOffsetContent, poly1305_TagSize. lia.
Qed.

End WireLaws.

(** ** The handshake engine: how the routines compose *)

Module NoiseLaws.

Import Wire Noise NoiseProofs.

(** Running a monadic routine: unfold the plumbing, keep the state
    operations folded, and read the handshake back through the updates. *)
Ltac run_M :=
  unfold check, try, fail, modifyH, modify, getH, gets;
  unfold mbind, M_bind, mret, M_ret; cbn beta.

Ltac read_handshake :=
  repeat first
    [ rewrite handshakeOf_update_eq
    | rewrite handshakeOf_set_indexTable
    | rewrite indexTable_update_handshake
    | rewrite indexTable_set_indexTable ];
  cbn [fst snd state hash chainKey presharedKey localEphemeral localIndex
       remoteIndex remoteStatic remoteEphemeral precomputedStaticStatic
       lastTimestamp lastInitiationConsumption lastSentHandshake
       set_state set_hash set_chainKey set_localEphemeral set_localIndex
       Handshake_mixHash Handshake_mixKey
       mr_Type mr_Sender mr_Receiver mi_Type mi_Sender].

(** *** Deleting keypairs and the index table *)

Lemma indexTable_DeleteKeypair (k : kloc) (tr : Transport) :
  indexTable (DeleteKeypair (Some k) tr)
  = delete (kp_localIndex (keypairAt tr k)) (indexTable tr).
Proof. reflexivity. Qed.

Lemma kp_localIndex_DeleteKeypair (key : option kloc) (k : kloc)
    (tr : Transport) :
  kp_localIndex (keypairAt (DeleteKeypair key tr) k)
  = kp_localIndex (keypairAt tr k).
Proof.
  destruct key as [k0 |]; [| reflexivity].
  rewrite keypairAt_DeleteKeypair. case_decide; [subst |]; reflexivity.
Qed.

(** Deleting a keypair whose index is not [index] leaves the binding of
    [index] alone. *)
Lemma lookup_DeleteKeypair (key : option kloc) (index : Z) (tr : Transport) :
  (forall k, key = Some k -> kp_localIndex (keypairAt tr k) <> index) ->
  indexTable (DeleteKeypair key tr) !! index = indexTable tr !! index.
Proof.
  intros Hne. destruct key as [k |]; [| reflexivity].
  rewrite indexTable_DeleteKeypair. apply lookup_delete_ne. auto.
Qed.

Lemma indexTable_update_keypairs (p : ploc) (ks : Keypairs)
    (tr : Transport) :
  indexTable (update_keypairs p ks tr) = indexTable tr.
Proof. reflexivity. Qed.

Section Sessions.

Context {prim : Primitives}.

Lemma deriveKeys_none (h : Handshake) :
  state h <> handshakeResponseConsumed ->
  state h <> handshakeResponseCreated ->
  deriveKeys h = None.
Proof.
  intros H1 H2.
  destruct (deriveKeys_cases h) as [[Hst _] | [[Hst _] | (_ & _ & ->)]];
    [contradiction | contradiction | reflexivity].
Qed.

Lemma deriveKeys_some (h : Handshake) (keys : bytes * bytes * bool) :
  deriveKeys h = Some keys ->
  state h = handshakeResponseConsumed \/ state h = handshakeResponseCreated.
Proof.
  destruct (deriveKeys_cases h) as [[Hst _] | [[Hst _] | (_ & _ & ->)]];
    [auto | auto | discriminate].
Qed.

(** The run of a successful [BeginSymmetricSession], in two steps. *)
Lemma BeginSymmetricSession_ok (peer : ploc) (now : Z) (tr : Transport) :
  fst (BeginSymmetricSession peer now tr) = None ->
  exists sendKey recvKey initiator,
    deriveKeys (handshakeOf tr peer) = Some (sendKey, recvKey, initiator)
    /\ snd (BeginSymmetricSession peer now tr)
       = rotateKeypairs peer (keypairFree tr) initiator
           (snd (installKeypair peer now sendKey recvKey initiator tr)).
Proof.
  unfold BeginSymmetricSession.
  destruct (deriveKeys (handshakeOf tr peer)) as [[[s r] i] |];
    [| discriminate].
  intros _. exists s, r, i. split; [reflexivity |].
  destruct (installKeypair peer now s r i tr) as [k tr1] eqn:Hinst.
  apply (f_equal fst) in Hinst as Hk. cbn [fst snd] in Hk |- *.
  rewrite installKeypair_new in Hk. subst k. reflexivity.
Qed.

(** X8.  A handshake yields one session: once [BeginSymmetricSession] has
    succeeded the handshake is zeroed, and a second call fails with the
    invalid-state error and changes nothing. *)
Theorem BeginSymmetricSession_once (peer : ploc) (now now' : Z)
    (tr : Transport) :
  fst (BeginSymmetricSession peer now tr) = None ->
  let tr' := snd (BeginSymmetricSession peer now tr) in
  state (handshakeOf tr' peer) = handshakeZeroed
  /\ BeginSymmetricSession peer now' tr'
     = (Some (errInvalidState handshakeZeroed), tr').
Proof.
  intros Hok tr'.
  destruct (BeginSymmetricSession_ok peer now tr Hok)
    as (s & r & i & _ & Htr').
  assert (Hst : state (handshakeOf tr' peer) = handshakeZeroed).
  { subst tr'. rewrite Htr', handshakeOf_rotateKeypairs.
    apply (installKeypair_handshake peer now s r i tr). }
  split; [exact Hst |].
  unfold BeginSymmetricSession at 1.
  rewrite deriveKeys_none by (rewrite Hst; discriminate).
  rewrite Hst. reflexivity.
Qed.

(** X9.  The responder's rotation is finished by the first packet under
    the new keypair: after [BeginSymmetricSession] in state
    ResponseCreated the new keypair waits in [next] while [current] still
    is the old one, and [ReceivedWithKeypair] on the new keypair makes it
    [current], the old [current] [previous], and empties [next]. *)
Theorem responder_rotation_completes (peer : ploc) (now : Z)
    (tr : Transport) :
  state (handshakeOf tr peer) = handshakeResponseCreated ->
  let new := keypairFree tr in
  let tr1 := snd (BeginSymmetricSession peer now tr) in
  let r := ReceivedWithKeypair peer (Some new) tr1 tr1 in
  fst (BeginSymmetricSession peer now tr) = None
  /\ keypairsOf tr1 peer
     = {| current := current (keypairsOf tr peer);
          previous := None; next := Some new |}
  /\ fst r = true
  /\ keypairsOf (snd r) peer
     = {| current := Some new;
          previous := current (keypairsOf tr peer); next := None |}.
Proof.
  intros Hst new tr1 r. subst new.
  assert (Hok : fst (BeginSymmetricSession peer now tr) = None).
  { unfold BeginSymmetricSession.
    destruct (deriveKeys_cases (handshakeOf tr peer))
      as [[Hst' _] | [[_ ->] | (_ & Hne & _)]];
      [congruence | | contradiction].
    destruct (installKeypair _ _ _ _ _ _); reflexivity. }
  destruct (BeginSymmetricSession_ok peer now tr Hok)
    as (s & rk & i & Hkeys & Htr1).
  assert (i = false) as ->.
  { destruct (deriveKeys_cases (handshakeOf tr peer))
      as [[Hst' _] | [[_ Hd] | (_ & Hne & _)]];
      [congruence | congruence | contradiction]. }
  fold tr1 in Htr1.
  pose proof (rotateKeypairs_responder peer (keypairFree tr)
                (snd (installKeypair peer now s rk false tr))) as Hrot.
  cbv zeta in Hrot. rewrite installKeypair_keypairs, <- Htr1 in Hrot.
  destruct Hrot as (Hnext & _ & Hprev & _ & Hcur).
  assert (Hks : keypairsOf tr1 peer
                = {| current := current (keypairsOf tr peer);
                     previous := None; next := Some (keypairFree tr) |}).
  { destruct (keypairsOf tr1 peer) as [c p n]. simpl in *. congruence. }
  split; [exact Hok |]. split; [exact Hks |].
  subst r. unfold ReceivedWithKeypair.
  rewrite Hks. cbn [next current previous].
  rewrite bool_decide_eq_true_2 by reflexivity. cbn [negb fst snd].
  split; [reflexivity |]. read_state. reflexivity.
Qed.

(** X10.  A keypair is promoted once: after [ReceivedWithKeypair] has
    answered [true] for a keypair, a second call for the same keypair
    answers [false] and changes nothing. *)
Theorem ReceivedWithKeypair_once (peer : ploc) (k : kloc)
    (seen tr : Transport) :
  fst (ReceivedWithKeypair peer (Some k) seen tr) = true ->
  let tr' := snd (ReceivedWithKeypair peer (Some k) seen tr) in
  next (keypairsOf tr' peer) = None
  /\ ReceivedWithKeypair peer (Some k) tr' tr' = (false, tr').
Proof.
  intros Hok tr'.
  assert (Hnext : next (keypairsOf tr' peer) = None).
  { subst tr'. revert Hok. unfold ReceivedWithKeypair.
    destruct (bool_decide (next (keypairsOf seen peer) = Some k));
      cbn [negb fst snd]; [| discriminate].
    destruct (bool_decide (next (keypairsOf tr peer) = Some k));
      cbn [negb fst snd]; [| discriminate].
    intros _. read_state. reflexivity. }
  split; [exact Hnext |].
  unfold ReceivedWithKeypair at 1. rewrite Hnext.
  rewrite bool_decide_eq_false_2 by discriminate. reflexivity.
Qed.

(** X11.  The index moves from the handshake to the session.  When the
    handshake's [localIndex] is bound in the index table and none of the
    keypairs in the peer's slots carries that index, a successful
    [BeginSymmetricSession] leaves the index bound to the new keypair, for
    the same peer and no handshake; the new keypair carries the index and
    the handshake's [localIndex] is reset to 0. *)
Theorem BeginSymmetricSession_remaps_index (peer : ploc) (now : Z)
    (tr : Transport) (e : IndexTableEntry) :
  let h := handshakeOf tr peer in
  let ks := keypairsOf tr peer in
  indexTable tr !! localIndex h = Some e ->
  keypairs_allocated tr peer ->
  (forall k, current ks = Some k \/ previous ks = Some k \/ next ks = Some k ->
     kp_localIndex (keypairAt tr k) <> localIndex h) ->
  fst (BeginSymmetricSession peer now tr) = None ->
  let tr' := snd (BeginSymmetricSession peer now tr) in
  IndexTable_Lookup (localIndex h) (indexTable tr')
  = {| entry_peer := entry_peer e; entry_handshake := None;
       entry_keypair := Some (keypairFree tr) |}
  /\ kp_localIndex (keypairAt tr' (keypairFree tr)) = localIndex h
  /\ localIndex (handshakeOf tr' peer) = 0.
Proof.
  intros h ks Hbound (Hc & Hp & Hn) Hunique Hok tr'.
  apply allocated_ne in Hc, Hp, Hn.
  destruct (BeginSymmetricSession_ok peer now tr Hok)
    as (s & r & i & _ & Htr').
  fold tr' in Htr'.
  set (tr1 := snd (installKeypair peer now s r i tr)) in *.
  assert (Hks1 : keypairsOf tr1 peer = ks)
    by apply installKeypair_keypairs.
  assert (Hkp1 : forall k, k <> keypairFree tr ->
            keypairAt tr1 k = keypairAt tr k).
  { intros k Hk. subst tr1. unfold installKeypair. simpl.
    rewrite fn_lookup_insert_ne by congruence. reflexivity. }
  assert (Htable1 : indexTable tr1 !! localIndex h
            = Some {| entry_peer := entry_peer e; entry_handshake := None;
                      entry_keypair := Some (keypairFree tr) |}).
  { subst tr1. unfold installKeypair. simpl.
    rewrite handshakeOf_update_eq. simpl. fold h.
    unfold IndexTable_SwapIndexForKeypair. rewrite Hbound.
    apply lookup_insert_eq. }
  assert (Hslot : forall key,
            key = current ks \/ key = previous ks \/ key = next ks ->
            forall k, key = Some k ->
              kp_localIndex (keypairAt tr1 k) <> localIndex h).
  { intros key Hkey k ->. rewrite Hkp1.
    - apply Hunique. destruct Hkey as [<- | [<- | <-]]; auto.
    - intros ->.
      destruct Hkey as [Hk | [Hk | Hk]];
        [apply Hc | apply Hp | apply Hn]; symmetry; exact Hk. }
  assert (Htable : indexTable tr' !! localIndex h
                   = indexTable tr1 !! localIndex h).
  { rewrite Htr'. unfold rotateKeypairs. rewrite Hks1.
    destruct i, (next ks) as [n |] eqn:Hnext; cbv beta iota zeta;
      repeat first
        [ rewrite indexTable_update_keypairs
        | rewrite lookup_DeleteKeypair ];
      try reflexivity;
      intros k Hk;
      repeat first
        [ rewrite kp_localIndex_DeleteKeypair
        | rewrite keypairAt_update_keypairs ];
      first
        [ discriminate Hk
        | eapply Hslot; [| exact Hk];
          first [ left; reflexivity
                | right; left; reflexivity
                | right; right; reflexivity
                | right; right; symmetry; exact Hnext ] ]. }
  split_and!.
  - unfold IndexTable_Lookup. rewrite Htable, Htable1. reflexivity.
  - rewrite Htr', keypairAt_rotateKeypairs by (rewrite Hks1; assumption).
    apply (installKeypair_keypair peer now s r i tr).
  - rewrite Htr', handshakeOf_rotateKeypairs.
    apply (installKeypair_handshake peer now s r i tr).
Qed.

End Sessions.


(** *** Frames *)

Lemma handshake_frame_refl (peer : ploc) (tr : Transport) :
  handshake_frame peer tr tr.
Proof. unfold handshake_frame. split_and!; reflexivity. Qed.

Lemma handshake_frame_update (peer : ploc) (f : Handshake -> Handshake)
    (tr tr' : Transport) :
  handshake_frame peer tr tr' ->
  handshake_frame peer tr (update_handshake peer f tr').
Proof.
  intros (Hsi & Hkm & Hka & Hkf & Hrun & Hks & Hhs).
  unfold handshake_frame. split_and!; try assumption.
  - intros q. rewrite <- Hrun. unfold update_handshake. simpl.
    destruct (decide (peer = q)) as [-> | Hne].
    + rewrite fn_lookup_insert. reflexivity.
    + rewrite fn_lookup_insert_ne by assumption. reflexivity.
  - intros q. rewrite keypairsOf_update_handshake. apply Hks.
  - intros q Hq. rewrite handshakeOf_update, decide_False by congruence.
    apply Hhs. assumption.
Qed.

Lemma handshake_frame_set_indexTable (peer : ploc) t (tr tr' : Transport) :
  handshake_frame peer tr tr' ->
  handshake_frame peer tr (set_indexTable t tr').
Proof. intros H. exact H. Qed.

Ltac frame :=
  repeat lazymatch goal with
    | |- handshake_frame _ _ (update_handshake _ _ _) =>
        apply handshake_frame_update
    | |- handshake_frame _ _ (set_indexTable _ _) =>
        apply handshake_frame_set_indexTable
    end;
  apply handshake_frame_refl.

Section Creation.

Context {prim : Primitives}.

(** X12.  [CreateMessageInitiation] and [CreateMessageResponse] work on
    the handshake of their peer and on the index table only: whatever the
    outcome, the static identity, the peers by key, all keypairs and
    slots, the running flags and the handshakes of all other peers are
    as before. *)
Theorem Create_routines_frame (peer : ploc) (newKey : bytes * option error)
    (now : bytes) (draws : list Z) (tr : Transport) :
  handshake_frame peer tr
    (snd (CreateMessageInitiation peer newKey now draws tr))
  /\ handshake_frame peer tr
       (snd (CreateMessageResponse peer newKey draws tr)).
Proof.
  split.
  - unfold CreateMessageInitiation. run_M.
    destruct newKey as [k [e |]]; cbn [fst snd]; [frame |].
    destruct (sharedSecret _ _) as [ss | e]; cbn [fst snd]; [| frame].
    destruct (KDF2 _ ss) as [c1 key1].
    destruct (isZero _); cbn [fst snd]; [frame |].
    destruct (KDF2 _ _) as [c2 key2].
    destruct (snd (fst (IndexTable_NewIndexForHandshake _ _ _ _)));
      cbn [fst snd]; frame.
  - unfold CreateMessageResponse. run_M.
    destruct (negb _); cbn [fst snd]; [frame |].
    destruct (snd (fst (IndexTable_NewIndexForHandshake _ _ _ _)));
      cbn [fst snd]; [frame |].
    destruct newKey as [k [e |]]; cbn [fst snd]; [frame |].
    destruct (sharedSecret _ _) as [ss1 | e1]; cbn [fst snd]; [| frame].
    destruct (sharedSecret _ _) as [ss2 | e2]; cbn [fst snd]; [| frame].
    destruct (KDF3 _ _) as [[c tau] key]. cbn [fst snd]. frame.
Qed.

End Creation.

(** *** What a successful creation leaves behind *)

Section RoundTrips.

Context {prim : Primitives}.

Lemma CreateMessageInitiation_ok (peer : ploc)
    (newKey : bytes * option error) (now : bytes) (draws : list Z)
    (tr : Transport) (msg : MessageInitiation) :
  fst (CreateMessageInitiation peer newKey now draws tr) = Ok msg ->
  let h := handshakeOf tr peer in
  let tr' := snd (CreateMessageInitiation peer newKey now draws tr) in
  let E := PublicKey (fst newKey) in
  let hash1 := mixHash (mixHash InitialHash (remoteStatic h)) E in
  let table0 := IndexTable_Delete (localIndex h) (indexTable tr) in
  exists ss,
    snd newKey = None
    /\ sharedSecret (fst newKey) (remoteStatic h) = Ok ss
    /\ isZero (precomputedStaticStatic h) = false
    /\ (let kdf1 := KDF2 (mixKey InitialChainKey E) ss in
        let Static :=
          Seal (snd kdf1) ZeroNonce (publicKey (staticIdentity tr)) hash1 in
        let hash2 := mixHash hash1 Static in
        let kdf2 := KDF2 (fst kdf1) (precomputedStaticStatic h) in
        let Timestamp := Seal (snd kdf2) ZeroNonce now hash2 in
        mi_Type msg = MessageInitiationType
        /\ mi_Ephemeral msg = E
        /\ mi_Static msg = Static
        /\ mi_Timestamp msg = Timestamp
        /\ mi_MAC1 msg = zeroMAC
        /\ mi_MAC2 msg = zeroMAC
        /\ handshakeOf tr' peer
           = {| state := handshakeInitiationCreated;
                hash := mixHash hash2 Timestamp;
                chainKey := fst kdf2;
                presharedKey := presharedKey h;
                localEphemeral := fst newKey;
                localIndex := mi_Sender msg;
                remoteIndex := remoteIndex h;
                remoteStatic := remoteStatic h;
                remoteEphemeral := remoteEphemeral h;
                precomputedStaticStatic := precomputedStaticStatic h;
                lastTimestamp := lastTimestamp h;
                lastInitiationConsumption := lastInitiationConsumption h;
                lastSentHandshake := lastSentHandshake h |}
        /\ table0 !! mi_Sender msg = None
        /\ indexTable tr'
           = <[mi_Sender msg := {| entry_peer := Some peer;
                                   entry_handshake := Some peer;
                                   entry_keypair := None |}]> table0).
Proof.
  intros Hok h tr' E hash1 table0.
  pose proof (NewIndexForHandshake_spec peer peer draws table0) as Halloc.
  cbv zeta in Halloc.
  subst tr'. revert Hok. unfold CreateMessageInitiation. run_M.
  read_handshake. fold h.
  destruct newKey as [k [e |]]; cbn [fst snd] in *; [discriminate |].
  read_handshake. fold h.
  destruct (sharedSecret k (remoteStatic h)) as [ss | e] eqn:Hss;
    [| discriminate].
  fold E hash1.
  destruct (KDF2 (mixKey InitialChainKey E) ss) as [c1 key1] eqn:Hk1.
  read_handshake. fold h.
  destruct (isZero (precomputedStaticStatic h)) eqn:Hzero; [discriminate |].
  destruct (KDF2 c1 (precomputedStaticStatic h)) as [c2 key2] eqn:Hk2.
  read_handshake. fold h table0.
  destruct (IndexTable_NewIndexForHandshake peer peer draws table0)
    as [[index err] t']. cbn [fst snd] in *.
  destruct err as [e |]; [discriminate |]. cbn [fst snd].
  intros [= <-]. exists ss.
  cbn [mi_Type mi_Sender mi_Ephemeral mi_Static mi_Timestamp mi_MAC1 mi_MAC2].
  destruct Halloc as (_ & Hfree & _ & ->).
  rewrite Hk1. cbn [fst snd]. rewrite Hk2. cbn [fst snd]. read_handshake.
  split_and!; try reflexivity; try assumption.
Qed.

Lemma CreateMessageResponse_ok (peer : ploc)
    (newKey : bytes * option error) (draws : list Z)
    (tr : Transport) (msg : MessageResponse) :
  fst (CreateMessageResponse peer newKey draws tr) = Ok msg ->
  let h := handshakeOf tr peer in
  let tr' := snd (CreateMessageResponse peer newKey draws tr) in
  let E := PublicKey (fst newKey) in
  let table0 := IndexTable_Delete (localIndex h) (indexTable tr) in
  exists ss1 ss2,
    state h = handshakeInitiationConsumed
    /\ snd newKey = None
    /\ sharedSecret (fst newKey) (remoteEphemeral h) = Ok ss1
    /\ sharedSecret (fst newKey) (remoteStatic h) = Ok ss2
    /\ (let kdf :=
          KDF3 (mixKey (mixKey (mixKey (chainKey h) E) ss1) ss2)
            (presharedKey h) in
        let hash1 := mixHash (mixHash (hash h) E) (snd (fst kdf)) in
        let Empty := Seal (snd kdf) ZeroNonce [] hash1 in
        mr_Type msg = MessageResponseType
        /\ mr_Receiver msg = remoteIndex h
        /\ mr_Ephemeral msg = E
        /\ mr_Empty msg = Empty
        /\ mr_MAC1 msg = zeroMAC
        /\ mr_MAC2 msg = zeroMAC
        /\ handshakeOf tr' peer
           = {| state := handshakeResponseCreated;
                hash := mixHash hash1 Empty;
                chainKey := fst (fst kdf);
                presharedKey := presharedKey h;
                localEphemeral := fst newKey;
                localIndex := mr_Sender msg;
                remoteIndex := remoteIndex h;
                remoteStatic := remoteStatic h;
                remoteEphemeral := remoteEphemeral h;
                precomputedStaticStatic := precomputedStaticStatic h;
                lastTimestamp := lastTimestamp h;
                lastInitiationConsumption := lastInitiationConsumption h;
                lastSentHandshake := lastSentHandshake h |}
        /\ table0 !! mr_Sender msg = None
        /\ indexTable tr'
           = <[mr_Sender msg := {| entry_peer := Some peer;
                                   entry_handshake := Some peer;
                                   entry_keypair := None |}]> table0).
Proof.
  intros Hok h tr' E table0.
  pose proof (NewIndexForHandshake_spec peer peer draws table0) as Halloc.
  cbv zeta in Halloc.
  subst tr'. revert Hok. unfold CreateMessageResponse. run_M. fold h.
  destruct (decide (state h = handshakeInitiationConsumed)) as [Hst | Hst].
  2:{ rewrite (bool_decide_eq_false_2 _ Hst). cbn [negb fst]. discriminate. }
  rewrite (bool_decide_eq_true_2 _ Hst). cbn [negb].
  read_handshake. fold h table0.
  destruct (IndexTable_NewIndexForHandshake peer peer draws table0)
    as [[index err] t']. cbn [fst snd] in *.
  destruct err as [e |]; [discriminate |]. cbn [fst snd].
  destruct newKey as [k [e |]]; cbn [fst snd] in *; [discriminate |].
  read_handshake. fold h E.
  destruct (sharedSecret k (remoteEphemeral h)) as [ss1 | e1] eqn:H1;
    [| discriminate].
  destruct (sharedSecret k (remoteStatic h)) as [ss2 | e2] eqn:H2;
    [| discriminate].
  read_handshake. fold h.
  destruct (KDF3 (mixKey (mixKey (mixKey (chainKey h) E) ss1) ss2)
              (presharedKey h)) as [[c tau] key] eqn:Hk.
  cbn [fst snd].
  intros [= <-]. exists ss1, ss2.
  cbn [mr_Type mr_Sender mr_Receiver mr_Ephemeral mr_Empty mr_MAC1 mr_MAC2].
  destruct Halloc as (_ & Hfree & _ & ->).
  rewrite Hk. cbn [fst snd]. read_handshake.
  split_and!; try reflexivity; try assumption.
Qed.

(** *** Round trips

    What the handshake needs of the primitives: Diffie-Hellman commutes,
    and [Open] gives back what [Seal] sealed under the same key, nonce and
    additional data. *)

Hypothesis dh_commutes : forall a b : bytes,
  sharedSecret a (PublicKey b) = sharedSecret b (PublicKey a).

Hypothesis open_seal : forall key nonce plaintext ad : bytes,
  Open key nonce (Seal key nonce plaintext ad) ad = Some plaintext.

(** X13.  An initiation round trip.  The initiator [A] knows the responder
    [B] as peer [p], [B] knows [A] as the running peer [q], both hold the
    same static-static secret, the timestamp is newer than the last one
    [B] accepted and the message does not count as a flood.  Then the
    message [CreateMessageInitiation] produced at [A] is accepted by
    [ConsumeMessageInitiation] at [B] for peer [q], and afterwards the two
    handshakes agree on hash and chain key, [B] holds [A]'s index and
    ephemeral public key, and [B] has recorded the timestamp. *)
Theorem initiation_round_trip (A B : Transport) (p q : ploc)
    (newKey : bytes * option error) (now : bytes) (draws : list Z)
    (rate clock wall : Z) (msg : MessageInitiation) :
  remoteStatic (handshakeOf A p) = publicKey (staticIdentity B) ->
  publicKey (staticIdentity B) = PublicKey (privateKey (staticIdentity B)) ->
  LookupPeer B (publicKey (staticIdentity A)) = Some q ->
  isRunning (peerAt B q) = true ->
  precomputedStaticStatic (handshakeOf B q)
  = precomputedStaticStatic (handshakeOf A p) ->
  Timestamp_After now (lastTimestamp (handshakeOf B q)) = true ->
  rate < Since clock (lastInitiationConsumption (handshakeOf B q)) ->
  fst (CreateMessageInitiation p newKey now draws A) = Ok msg ->
  let hA' :=
    handshakeOf (snd (CreateMessageInitiation p newKey now draws A)) p in
  let r := ConsumeMessageInitiation rate msg clock wall B in
  let hB' := handshakeOf (snd r) q in
  fst r = Some q
  /\ state hA' = handshakeInitiationCreated
  /\ state hB' = handshakeInitiationConsumed
  /\ hash hB' = hash hA'
  /\ chainKey hB' = chainKey hA'
  /\ remoteIndex hB' = localIndex hA'
  /\ remoteEphemeral hB' = PublicKey (localEphemeral hA')
  /\ lastTimestamp hB' = now.
Proof.
  intros Hstatic Hpub Hpeer Hrun Hpss Hnewer Hflood Hok hA' r hB'.
  destruct (CreateMessageInitiation_ok p newKey now draws A msg Hok)
    as (ss & HnewKey & Hss & Hzero & Hty & HE & HS & HT & _ & _ & HhA
        & _ & _).
  subst hA' hB' r. rewrite HhA. cbn.
  rewrite ConsumeMessageInitiation_unfold. cbv zeta.
  assert (Hty' : negb (mi_Type msg =? MessageInitiationType) = false)
    by (rewrite Hty; reflexivity).
  rewrite Hty'.
  assert (HssB : sharedSecret (privateKey (staticIdentity B))
                   (mi_Ephemeral msg) = Ok ss).
  { rewrite HE, dh_commutes, <- Hpub, <- Hstatic. exact Hss. }
  rewrite HssB.
  assert (Hh1 : responderHash1 B msg
                = mixHash (mixHash InitialHash
                             (remoteStatic (handshakeOf A p)))
                    (PublicKey (fst newKey))).
  { unfold responderHash1. rewrite HE, Hstatic. reflexivity. }
  assert (HdS : decryptedStatic B msg ss
                = Some (publicKey (staticIdentity A))).
  { unfold decryptedStatic. rewrite Hh1, HE, HS. apply open_seal. }
  rewrite HdS, Hpeer, Hrun. cbn [negb].
  rewrite Hpss, Hzero.
  assert (Hh2 : responderHash2 B msg
                = mixHash (responderHash1 B msg) (mi_Static msg))
    by reflexivity.
  assert (HdT : decryptedTimestamp B msg ss
                  (precomputedStaticStatic (handshakeOf A p)) = Some now).
  { unfold decryptedTimestamp, responderChainKey1.
    rewrite Hh2, Hh1, HE. rewrite HT at 1. rewrite HS. apply open_seal. }
  rewrite HdT, Hnewer. cbn [negb].
  assert (Hnf : (Since clock (lastInitiationConsumption (handshakeOf B q))
                 <=? rate) = false) by (apply Z.leb_gt; exact Hflood).
  rewrite Hnf. cbn [fst snd].
  rewrite handshakeOf_update_eq. cbn. rewrite Hnewer. cbn.
  destruct (Time_After wall _); cbn;
    (split_and!; try reflexivity;
     [ unfold responderHash3; rewrite Hh2, Hh1, HS, HT; reflexivity
     | unfold responderChainKey2, responderChainKey1; rewrite HE;
       reflexivity
     | exact HE ]).
Qed.

(** X14.  A response round trip.  The initiator [A] waits in state
    InitiationCreated; the responder [B] has consumed the initiation, so
    that the two handshakes agree on hash, chain key and preshared key,
    [B] holds [A]'s ephemeral and static public keys, and the index [B]
    will answer to is bound to [A]'s handshake.  Then the message
    [CreateMessageResponse] produced at [B] is accepted by
    [ConsumeMessageResponse] at [A], and afterwards the two handshakes
    agree on hash and chain key again and [A] holds [B]'s index. *)
Theorem response_round_trip (A B : Transport) (p q : ploc)
    (newKey : bytes * option error) (draws : list Z)
    (msg : MessageResponse) :
  let hA := handshakeOf A p in
  let hB := handshakeOf B q in
  let lookup := IndexTable_Lookup (remoteIndex hB) (indexTable A) in
  state hA = handshakeInitiationCreated ->
  hash hB = hash hA ->
  chainKey hB = chainKey hA ->
  presharedKey hB = presharedKey hA ->
  remoteEphemeral hB = PublicKey (localEphemeral hA) ->
  remoteStatic hB = PublicKey (privateKey (staticIdentity A)) ->
  entry_handshake lookup = Some p ->
  fst (CreateMessageResponse q newKey draws B) = Ok msg ->
  let hB' := handshakeOf (snd (CreateMessageResponse q newKey draws B)) q in
  let r := ConsumeMessageResponse msg A in
  let hA' := handshakeOf (snd r) p in
  fst r = entry_peer lookup
  /\ state hB' = handshakeResponseCreated
  /\ state hA' = handshakeResponseConsumed
  /\ hash hA' = hash hB'
  /\ chainKey hA' = chainKey hB'
  /\ remoteIndex hA' = localIndex hB'.
Proof.
  intros hA hB lookup Hst Hhash Hck Hpsk Heph Hstatic Hentry Hok hB' r hA'.
  destruct (CreateMessageResponse_ok q newKey draws B msg Hok)
    as (ss1 & ss2 & _ & _ & H1 & H2 & Hty & Hrecv & HE & HEmpty & _ & _
        & HhB & _ & _).
  fold hB in H1, H2, Hrecv, HEmpty, HhB.
  assert (Hacc : response_accepted msg (staticIdentity A) hA
                   (hash hB') (chainKey hB')).
  { subst hB'. rewrite HhB. cbn [hash chainKey].
    split; [exact Hst |]. exists ss1, ss2, [].
    assert (Hk : initiatorKDF3 msg hA ss1 ss2
                 = KDF3 (mixKey (mixKey (mixKey (chainKey hB)
                                           (PublicKey (fst newKey))) ss1)
                           ss2) (presharedKey hB)).
    { unfold initiatorKDF3. rewrite HE, Hck, Hpsk. reflexivity. }
    assert (Hh : initiatorHash msg hA ss1 ss2
                 = mixHash (mixHash (hash hB) (PublicKey (fst newKey)))
                     (snd (fst (KDF3 (mixKey (mixKey (mixKey (chainKey hB)
                                        (PublicKey (fst newKey))) ss1) ss2)
                                  (presharedKey hB))))).
    { unfold initiatorHash. rewrite Hk, HE, Hhash. reflexivity. }
    split_and!.
    - rewrite HE, <- dh_commutes, <- Heph. exact H1.
    - rewrite HE, dh_commutes, <- Hstatic. exact H2.
    - rewrite Hk, Hh. rewrite HEmpty at 1. apply open_seal.
    - rewrite Hh, HEmpty. reflexivity.
    - rewrite Hk. reflexivity. }
  subst r hA'. unfold ConsumeMessageResponse.
  assert (Hty' : negb (mr_Type msg =? MessageResponseType) = false)
    by (rewrite Hty; reflexivity).
  rewrite Hty', Hrecv. fold lookup. rewrite Hentry. fold hA.
  rewrite (deriveResponse_accepted _ _ _ _ _ Hacc). cbn [fst snd].
  rewrite handshakeOf_update_eq. subst hB'. rewrite HhB. cbn.
  split_and!; reflexivity.
Qed.

(** X15.  The two sides of a finished handshake derive matching sessions.
    When the initiator (state ResponseConsumed) and the responder (state
    ResponseCreated) hold the same chain key and each other's index, and
    their slots hold pointers allocated earlier, both calls of
    [BeginSymmetricSession] succeed, the initiator's new keypair becomes
    its [current] and the responder's waits in [next], each side sends
    under the key the other receives under, and each keypair's remote
    index is the other's local index. *)
Theorem sessions_agree (A B : Transport) (p q : ploc) (nowA nowB : Z) :
  let hA := handshakeOf A p in
  let hB := handshakeOf B q in
  state hA = handshakeResponseConsumed ->
  state hB = handshakeResponseCreated ->
  chainKey hA = chainKey hB ->
  remoteIndex hA = localIndex hB ->
  remoteIndex hB = localIndex hA ->
  keypairs_allocated A p ->
  keypairs_allocated B q ->
  let rA := BeginSymmetricSession p nowA A in
  let rB := BeginSymmetricSession q nowB B in
  let kA := keypairAt (snd rA) (keypairFree A) in
  let kB := keypairAt (snd rB) (keypairFree B) in
  fst rA = None /\ fst rB = None
  /\ current (keypairsOf (snd rA) p) = Some (keypairFree A)
  /\ next (keypairsOf (snd rB) q) = Some (keypairFree B)
  /\ send kA = receive kB
  /\ receive kA = send kB
  /\ isInitiator kA = true
  /\ isInitiator kB = false
  /\ kp_remoteIndex kA = kp_localIndex kB
  /\ kp_remoteIndex kB = kp_localIndex kA.
Proof.
  intros hA hB HstA HstB Hck HriA HriB (HcA & HpA & HnA) (HcB & HpB & HnB)
    rA rB kA kB.
  apply allocated_ne in HcA, HpA, HnA, HcB, HpB, HnB.
  subst kA kB rA rB. unfold BeginSymmetricSession. fold hA hB.
  destruct (deriveKeys_cases hA)
    as [[_ ->] | [[Hst' _] | (Hne & _ & _)]];
    [| congruence | contradiction].
  destruct (deriveKeys_cases hB)
    as [[Hst' _] | [[_ ->] | (_ & Hne & _)]];
    [congruence | | contradiction].
  set (tA := KDF2 (chainKey hA) []). set (tB := KDF2 (chainKey hB) []).
  assert (HtAB : tA = tB) by (subst tA tB; rewrite Hck; reflexivity).
  pose proof (installKeypair_keypair p nowA (fst tA) (snd tA) true A)
    as (HsA & HrA & HiA & _ & HliA & HriA').
  pose proof (installKeypair_keypairs p nowA (fst tA) (snd tA) true A)
    as HksA.
  pose proof (installKeypair_keypair q nowB (snd tB) (fst tB) false B)
    as (HsB & HrB & HiB & _ & HliB & HriB').
  pose proof (installKeypair_keypairs q nowB (snd tB) (fst tB) false B)
    as HksB.
  destruct (installKeypair p nowA (fst tA) (snd tA) true A)
    as [ka trA] eqn:HinstA.
  assert (ka = keypairFree A) as -> by (now apply (f_equal fst) in HinstA).
  destruct (installKeypair q nowB (snd tB) (fst tB) false B)
    as [kb trB] eqn:HinstB.
  assert (kb = keypairFree B) as -> by (now apply (f_equal fst) in HinstB).
  cbn [fst snd] in *.
  pose proof (rotateKeypairs_initiator p (keypairFree A) trA) as (HcurA & _).
  pose proof (rotateKeypairs_responder q (keypairFree B) trB) as (HnxB & _).
  rewrite !keypairAt_rotateKeypairs by (rewrite ?HksA, ?HksB; assumption).
  fold hA in HliA, HriA'. fold hB in HliB, HriB'.
  split_and!; try reflexivity; try assumption; congruence.
Qed.

End RoundTrips.

(** *** Replays and stale messages *)

Section Replays.

Context {prim : Primitives}.

Lemma isRunning_update_handshake (p q : ploc) (f : Handshake -> Handshake)
    (tr : Transport) :
  isRunning (peerAt (update_handshake p f tr) q) = isRunning (peerAt tr q).
Proof.
  unfold update_handshake. simpl.
  destruct (decide (p = q)) as [-> | Hne].
  - rewrite fn_lookup_insert. reflexivity.
  - rewrite fn_lookup_insert_ne by assumption. reflexivity.
Qed.

(** X16.  An initiation is accepted once.  After
    [ConsumeMessageInitiation] has accepted a message, the same message is
    turned away whenever it arrives again, however much later, and the
    second attempt changes nothing. *)
Theorem ConsumeMessageInitiation_replay (rate : Z) (msg : MessageInitiation)
    (clock now clock' now' : Z) (tr : Transport) (peer : ploc) :
  fst (ConsumeMessageInitiation rate msg clock now tr) = Some peer ->
  let tr' := snd (ConsumeMessageInitiation rate msg clock now tr) in
  ConsumeMessageInitiation rate msg clock' now' tr' = (None, tr').
Proof.
  intros Hok tr'. subst tr'. revert Hok.
  rewrite (ConsumeMessageInitiation_unfold rate msg clock now tr).
  cbv zeta.
  destruct (negb (mi_Type msg =? MessageInitiationType)) eqn:Hty;
    [discriminate |].
  destruct (sharedSecret _ _) as [ss | e] eqn:Hss; [| discriminate].
  destruct (decryptedStatic tr msg ss) as [peerPK |] eqn:Hstatic;
    [| discriminate].
  destruct (LookupPeer tr peerPK) as [peer0 |] eqn:Hpeer; [| discriminate].
  destruct (negb (isRunning (peerAt tr peer0))) eqn:Hrun; [discriminate |].
  destruct (isZero _) eqn:Hzero; [discriminate |].
  destruct (decryptedTimestamp tr msg ss _) as [timestamp |] eqn:Hts;
    [| discriminate].
  destruct (Timestamp_After timestamp _) eqn:Hafter; cbn [negb];
    [| discriminate].
  destruct (Since clock _ <=? rate); [discriminate |].
  cbn [fst snd]. intros [= <-].
  set (tr' := update_handshake peer0 _ tr).
  rewrite (ConsumeMessageInitiation_unfold rate msg clock' now' tr').
  cbv zeta.
  assert (Hsi : staticIdentity tr' = staticIdentity tr) by reflexivity.
  assert (Hst' : decryptedStatic tr' msg ss = decryptedStatic tr msg ss)
    by reflexivity.
  assert (Hh' : handshakeOf tr' peer0
                = set_state handshakeInitiationConsumed
                    ((fun h => if Time_After now (lastInitiationConsumption h)
                               then set_lastInitiationConsumption now h
                               else h)
                       (set_lastTimestamp timestamp
                          (set_remoteEphemeral (mi_Ephemeral msg)
                             (set_remoteIndex (mi_Sender msg)
                                (set_chainKey
                                   (responderChainKey2 msg ss
                                      (precomputedStaticStatic
                                         (handshakeOf tr peer0)))
                                   (set_hash (responderHash3 tr msg)
                                      (handshakeOf tr peer0)))))))).
  { subst tr'. rewrite handshakeOf_update_eq. cbn. rewrite Hafter.
    reflexivity. }
  assert (Hpss' : precomputedStaticStatic (handshakeOf tr' peer0)
                  = precomputedStaticStatic (handshakeOf tr peer0)).
  { rewrite Hh'. cbn. destruct (Time_After _ _); reflexivity. }
  assert (Hlast' : lastTimestamp (handshakeOf tr' peer0) = timestamp).
  { rewrite Hh'. cbn. destruct (Time_After _ _); reflexivity. }
  rewrite Hty, Hsi, Hss, Hst', Hstatic.
  change (LookupPeer tr' peerPK) with (LookupPeer tr peerPK). rewrite Hpeer.
  unfold tr' at 1. rewrite isRunning_update_handshake, Hrun.
  rewrite Hpss', Hzero.
  change (decryptedTimestamp tr' msg ss) with (decryptedTimestamp tr msg ss).
  rewrite Hts, Hlast', Timestamp_After_irrefl. reflexivity.
Qed.

(** X17.  A response is accepted once.  After [ConsumeMessageResponse]
    has returned a peer for a message, the handshake is in state
    ResponseConsumed and the same message is turned away, changing
    nothing. *)
Theorem ConsumeMessageResponse_replay (msg : MessageResponse)
    (tr : Transport) (peer : ploc) :
  fst (ConsumeMessageResponse msg tr) = Some peer ->
  let tr' := snd (ConsumeMessageResponse msg tr) in
  ConsumeMessageResponse msg tr' = (None, tr').
Proof.
  intros Hok tr'. subst tr'. revert Hok. unfold ConsumeMessageResponse.
  destruct (negb (mr_Type msg =? MessageResponseType)) eqn:Hty;
    [discriminate |].
  destruct (entry_handshake _) as [hs |] eqn:Hentry; [| discriminate].
  destruct (deriveResponse msg _ _) as [[hash' chainKey'] |];
    [| discriminate].
  cbn [fst snd]. intros _.
  rewrite indexTable_update_handshake, Hentry.
  rewrite handshakeOf_update_eq.
  unfold deriveResponse at 1. cbn [state set_state].
  rewrite bool_decide_eq_false_2 by discriminate. reflexivity.
Qed.

(** X18.  A new initiation makes the answer to the old one stale.  When
    [CreateMessageInitiation] succeeds and draws an index other than the
    handshake's previous one, the previous index is bound to nothing, and
    [ConsumeMessageResponse] turns away every response addressed to it. *)
Theorem stale_response_rejected (peer : ploc)
    (newKey : bytes * option error) (now : bytes) (draws : list Z)
    (tr : Transport) (msg : MessageInitiation) (resp : MessageResponse) :
  fst (CreateMessageInitiation peer newKey now draws tr) = Ok msg ->
  mi_Sender msg <> localIndex (handshakeOf tr peer) ->
  mr_Receiver resp = localIndex (handshakeOf tr peer) ->
  let tr' := snd (CreateMessageInitiation peer newKey now draws tr) in
  indexTable tr' !! localIndex (handshakeOf tr peer) = None
  /\ ConsumeMessageResponse resp tr' = (None, tr').
Proof.
  intros Hok Hne Hrecv tr'.
  destruct (CreateMessageInitiation_ok peer newKey now draws tr msg Hok)
    as (ss & _ & _ & _ & _ & _ & _ & _ & _ & _ & _ & _ & Htable).
  fold tr' in Htable.
  assert (Hnone : indexTable tr' !! localIndex (handshakeOf tr peer) = None).
  { rewrite Htable, lookup_insert_ne by assumption.
    unfold IndexTable_Delete. apply lookup_delete_eq. }
  split; [exact Hnone |].
  unfold ConsumeMessageResponse, IndexTable_Lookup.
  rewrite Hrecv, Hnone. cbn [default zeroEntry entry_handshake].
  destruct (negb _); reflexivity.
Qed.

(** X19.  One response per consumed initiation: after
    [CreateMessageResponse] has succeeded the handshake is in state
    ResponseCreated, and a second call fails with the
    initiation-not-consumed error and changes nothing. *)
Theorem CreateMessageResponse_once (peer : ploc)
    (newKey newKey' : bytes * option error) (draws draws' : list Z)
    (tr : Transport) (msg : MessageResponse) :
  fst (CreateMessageResponse peer newKey draws tr) = Ok msg ->
  let tr' := snd (CreateMessageResponse peer newKey draws tr) in
  CreateMessageResponse peer newKey' draws' tr'
  = (Err errInitiationNotConsumed, tr').
Proof.
  intros Hok tr'.
  destruct (CreateMessageResponse_ok peer newKey draws tr msg Hok)
    as (ss1 & ss2 & _ & _ & _ & _ & _ & _ & _ & _ & _ & _ & Hh & _ & _).
  fold tr' in Hh.
  unfold CreateMessageResponse. run_M. rewrite Hh. cbn [state].
  rewrite bool_decide_eq_false_2 by discriminate. reflexivity.
Qed.

(** X20.  [Handshake.Clear] zeroes the two ephemeral keys, the chain key
    and the hash without changing their lengths, resets the local index
    and the state, and keeps the preshared key, the remote static key, the
    precomputed secret, the remote index and the replay timestamp; clearing
    twice is clearing once; and no session starts from a cleared
    handshake. *)
Theorem Handshake_Clear_spec (h : Handshake) :
  let h' := Handshake_Clear h in
  state h' = handshakeZeroed
  /\ localIndex h' = 0
  /\ isZero (localEphemeral h') = true
  /\ isZero (remoteEphemeral h') = true
  /\ isZero (chainKey h') = true
  /\ isZero (hash h') = true
  /\ length (localEphemeral h') = length (localEphemeral h)
  /\ length (remoteEphemeral h') = length (remoteEphemeral h)
  /\ length (chainKey h') = length (chainKey h)
  /\ length (hash h') = length (hash h)
  /\ presharedKey h' = presharedKey h
  /\ remoteStatic h' = remoteStatic h
  /\ precomputedStaticStatic h' = precomputedStaticStatic h
  /\ remoteIndex h' = remoteIndex h
  /\ lastTimestamp h' = lastTimestamp h
  /\ Handshake_Clear h' = h'
  /\ deriveKeys h' = None.
Proof.
  assert (Hidem : forall b : bytes, setZero (setZero b) = setZero b).
  { intros b. unfold setZero. rewrite map_map. reflexivity. }
  cbv zeta. unfold Handshake_Clear. cbn.
  rewrite !isZero_setZero, !setZero_length, !Hidem.
  split_and!; reflexivity.
Qed.

End Replays.

(** *** Created messages fill their wire layout *)

Section Sizes.

Context {prim : Primitives}.

(** What the layout needs of the primitives: a public key is 32 bytes and
    sealing adds the 16-byte tag. *)
Hypothesis PublicKey_length : forall sk : bytes,
  Z.of_nat (length (PublicKey sk)) = NoisePublicKeySize.

Hypothesis Seal_length : forall key nonce plaintext ad : bytes,
  Z.of_nat (length (Seal key nonce plaintext ad))
  = Z.of_nat (length plaintext) + poly1305_TagSize.

Lemma CreateMessageInitiation_sender (peer : ploc)
    (newKey : bytes * option error) (now : bytes) (draws : list Z)
    (tr : Transport) (msg : MessageInitiation) :
  fst (CreateMessageInitiation peer newKey now draws tr) = Ok msg ->
  0 <= mi_Sender msg < 2 ^ 32.
Proof.
  pose proof (NewIndexForHandshake_spec peer peer draws
    (IndexTable_Delete (localIndex (handshakeOf tr peer)) (indexTable tr)))
    as Halloc.
  cbv zeta in Halloc. revert Halloc.
  unfold CreateMessageInitiation. run_M. read_handshake.
  destruct newKey as [k [e |]]; cbn [fst snd]; [discriminate |].
  read_handshake.
  destruct (sharedSecret _ _) as [ss | e]; [| discriminate].
  destruct (KDF2 _ ss) as [c1 key1]. read_handshake.
  destruct (isZero _); [discriminate |].
  destruct (KDF2 _ _) as [c2 key2]. read_handshake.
  destruct (IndexTable_NewIndexForHandshake _ _ _ _) as [[index err] t'].
  cbn [fst snd]. destruct err as [e |]; [discriminate |].
  intros (Hrange & _) [= <-]. exact Hrange.
Qed.

Lemma CreateMessageResponse_sender (peer : ploc)
    (newKey : bytes * option error) (draws : list Z)
    (tr : Transport) (msg : MessageResponse) :
  fst (CreateMessageResponse peer newKey draws tr) = Ok msg ->
  0 <= mr_Sender msg < 2 ^ 32.
Proof.
  pose proof (NewIndexForHandshake_spec peer peer draws
    (IndexTable_Delete (localIndex (handshakeOf tr peer)) (indexTable tr)))
    as Halloc.
  cbv zeta in Halloc. revert Halloc.
  unfold CreateMessageResponse. run_M.
  destruct (negb _); [discriminate |]. read_handshake.
  destruct (IndexTable_NewIndexForHandshake _ _ _ _) as [[index err] t'].
  cbn [fst snd]. destruct err as [e |]; [discriminate |]. cbn [fst snd].
  destruct newKey as [k [e |]]; cbn [fst snd]; [discriminate |].
  read_handshake.
  destruct (sharedSecret _ _) as [ss1 | e1]; [| discriminate].
  destruct (sharedSecret _ _) as [ss2 | e2]; [| discriminate].
  read_handshake.
  destruct (KDF3 _ _) as [[c tau] key]. cbn [fst snd].
  intros (Hrange & _) [= <-]. exact Hrange.
Qed.

Lemma zeroMAC_length : Z.of_nat (length zeroMAC) = blake2s_Size128.
Proof. reflexivity. Qed.

(** X21.  Every initiation that [CreateMessageInitiation] returns fills
    the wire layout exactly: with a 32-byte static public key and a
    12-byte timestamp, the sealed static key is 48 bytes, the sealed
    timestamp 28, the sender index fits 32 bits, and the message takes
    [MessageInitiationSize] bytes. *)
Theorem CreateMessageInitiation_size (peer : ploc)
    (newKey : bytes * option error) (now : bytes) (draws : list Z)
    (tr : Transport) (msg : MessageInitiation) :
  Z.of_nat (length (publicKey (staticIdentity tr))) = NoisePublicKeySize ->
  Z.of_nat (length now) = TimestampSize ->
  fst (CreateMessageInitiation peer newKey now draws tr) = Ok msg ->
  0 <= mi_Sender msg < 2 ^ 32
  /\ Z.of_nat (length (mi_Ephemeral msg)) = 32
  /\ Z.of_nat (length (mi_Static msg)) = 32 + 16
  /\ Z.of_nat (length (mi_Timestamp msg)) = 12 + 16
  /\ MessageInitiation_size msg = MessageInitiationSize.
Proof.
  intros Hpub Hnow Hok.
  pose proof (CreateMessageInitiation_sender _ _ _ _ _ _ Hok) as Hrange.
  destruct (CreateMessageInitiation_ok peer newKey now draws tr msg Hok)
    as (ss & _ & _ & _ & _ & HE & HS & HT & HM1 & HM2 & _).
  assert (HlE : Z.of_nat (length (mi_Ephemeral msg)) = 32)
    by (rewrite HE; apply PublicKey_length).
  assert (HlS : Z.of_nat (length (mi_Static msg)) = 32 + 16)
    by (rewrite HS, Seal_length, Hpub; reflexivity).
  assert (HlT : Z.of_nat (length (mi_Timestamp msg)) = 12 + 16)
    by (rewrite HT, Seal_length, Hnow; reflexivity).
  split_and!; try assumption; try lia.
  unfold MessageInitiation_size.
  rewrite HlE, HlS, HlT, HM1, HM2, zeroMAC_length. reflexivity.
Qed.

(** X22.  Every response that [CreateMessageResponse] returns fills the
    wire layout exactly: the sealed empty payload is the 16-byte tag
    alone, the sender index fits 32 bits, and the message takes
    [MessageResponseSize] bytes. *)
Theorem CreateMessageResponse_size (peer : ploc)
    (newKey : bytes * option error) (draws : list Z)
    (tr : Transport) (msg : MessageResponse) :
  fst (CreateMessageResponse peer newKey draws tr) = Ok msg ->
  0 <= mr_Sender msg < 2 ^ 32
  /\ Z.of_nat (length (mr_Ephemeral msg)) = 32
  /\ Z.of_nat (length (mr_Empty msg)) = 16
  /\ MessageResponse_size msg = MessageResponseSize.
Proof.
  intros Hok.
  pose proof (CreateMessageResponse_sender _ _ _ _ _ Hok) as Hrange.
  destruct (CreateMessageResponse_ok peer newKey draws tr msg Hok)
    as (ss1 & ss2 & _ & _ & _ & _ & _ & _ & HE & HEmpty & HM1 & HM2 & _).
  assert (HlE : Z.of_nat (length (mr_Ephemeral msg)) = 32)
    by (rewrite HE; apply PublicKey_length).
  assert (HlEmpty : Z.of_nat (length (mr_Empty msg)) = 16)
    by (rewrite HEmpty, Seal_length; reflexivity).
  split_and!; try assumption; try lia.
  unfold MessageResponse_size.
  rewrite HlE, HlEmpty, HM1, HM2, zeroMAC_length. reflexivity.
Qed.

End Sizes.

(** *** The laws at work on the small instance *)

Import Toy.

Lemma weight_repeat_0 (n : nat) : weight (repeat 0 n) = 0.
Proof. induction n as [| n IH]; [reflexivity |]. cbn. exact IH. Qed.

Lemma weight_digest (n : nat) (x : Z) : weight (digest n x) = x mod 251.
Proof.
  unfold digest, weight. cbn [fold_right].
  change (fold_right Z.add 0 (repeat 0 (n - 1))) with (weight (repeat 0 (n - 1))).
  rewrite weight_repeat_0. lia.
Qed.

Lemma digest_mod (n : nat) (x y : Z) :
  x mod 251 = y mod 251 -> digest n x = digest n y.
Proof. unfold digest. intros ->. reflexivity. Qed.

Lemma tag_length (key nonce plaintext ad : bytes) :
  length (tag key nonce plaintext ad) = 16%nat.
Proof. reflexivity. Qed.

(** The instance meets the laws the round trips ask of the primitives. *)
Lemma toy_dh_commutes (a b : bytes) :
  sharedSecret a (PublicKey b) = sharedSecret b (PublicKey a).
Proof.
  cbn [sharedSecret PublicKey primitives]. unfold dh. cbv zeta.
  rewrite !weight_digest.
  rewrite (digest_mod 32 (weight a * ((9 * weight b) mod 251))
             (weight b * ((9 * weight a) mod 251))); [reflexivity |].
  rewrite !Z.mul_mod_idemp_r by lia. f_equal. lia.
Qed.

Lemma toy_open_seal (key nonce plaintext ad : bytes) :
  Open key nonce (Seal key nonce plaintext ad) ad = Some plaintext.
Proof.
  cbn [Open Seal primitives]. unfold open, seal.
  rewrite length_app, tag_length.
  destruct (Nat.ltb_spec (length plaintext + 16) 16) as [Hlt | _]; [lia |].
  cbv zeta.
  replace (length plaintext + 16 - 16)%nat with (length plaintext) by lia.
  rewrite take_app_length, drop_app_length.
  rewrite bool_decide_eq_true_2 by reflexivity. reflexivity.
Qed.

Lemma toy_PublicKey_length (sk : bytes) :
  Z.of_nat (length (PublicKey sk)) = NoisePublicKeySize.
Proof. reflexivity. Qed.

Lemma toy_Seal_length (key nonce plaintext ad : bytes) :
  Z.of_nat (length (Seal key nonce plaintext ad))
  = Z.of_nat (length plaintext) + poly1305_TagSize.
Proof.
  cbn [Seal primitives]. unfold seal, poly1305_TagSize.
  rewrite length_app, tag_length. lia.
Qed.

Ltac evaluated := vm_compute; first [reflexivity | lia | exact I].

(** X8 at work: [alice] has consumed the response and begins her session;
    a second call at a later time is refused. *)
Lemma BeginSymmetricSession_once_witness :
  let tr' := snd (BeginSymmetricSession 0%nat wall (snd alice2)) in
  fst (BeginSymmetricSession 0%nat wall (snd alice2)) = None
  /\ state (handshakeOf tr' 0%nat) = handshakeZeroed
  /\ BeginSymmetricSession 0%nat (wall + 1) tr'
     = (Some (errInvalidState handshakeZeroed), tr').
Proof.
  intros tr'.
  assert (Hok : fst (BeginSymmetricSession 0%nat wall (snd alice2)) = None)
    by evaluated.
  split; [exact Hok |].
  exact (BeginSymmetricSession_once 0%nat wall (wall + 1) (snd alice2) Hok).
Defined.

(** X9 at work: [bob] has created the response; his keypair waits in
    [next] until the first packet under it arrives. *)
Lemma responder_rotation_completes_witness :
  let tr := snd bob2 in
  let new := keypairFree tr in
  let tr1 := snd (BeginSymmetricSession 0%nat wall tr) in
  let r := ReceivedWithKeypair 0%nat (Some new) tr1 tr1 in
  state (handshakeOf tr 0%nat) = handshakeResponseCreated
  /\ fst (BeginSymmetricSession 0%nat wall tr) = None
  /\ keypairsOf tr1 0%nat
     = {| current := current (keypairsOf tr 0%nat);
          previous := None; next := Some new |}
  /\ fst r = true
  /\ keypairsOf (snd r) 0%nat
     = {| current := Some new;
          previous := current (keypairsOf tr 0%nat); next := None |}.
Proof.
  intros tr new tr1 r.
  assert (Hst : state (handshakeOf tr 0%nat) = handshakeResponseCreated)
    by evaluated.
  split; [exact Hst |].
  exact (responder_rotation_completes 0%nat wall tr Hst).
Defined.

(** X10 at work: the first packet under [bob]'s new keypair promotes it;
    the second finds nothing left to promote. *)
Lemma ReceivedWithKeypair_once_witness :
  let tr := snd bob3 in
  let tr' := snd (ReceivedWithKeypair 0%nat (Some 0%nat) tr tr) in
  fst (ReceivedWithKeypair 0%nat (Some 0%nat) tr tr) = true
  /\ next (keypairsOf tr' 0%nat) = None
  /\ ReceivedWithKeypair 0%nat (Some 0%nat) tr' tr' = (false, tr').
Proof.
  intros tr tr'.
  assert (Hok : fst (ReceivedWithKeypair 0%nat (Some 0%nat) tr tr) = true)
    by evaluated.
  split; [exact Hok |].
  exact (ReceivedWithKeypair_once 0%nat 0%nat tr tr Hok).
Defined.

(** X11 at work: in [alice]'s second handshake the index 9001 moves from
    the handshake to the new keypair, beside the first session's 4242. *)
Lemma BeginSymmetricSession_remaps_index_witness :
  let tr := snd alice5 in
  let e := {| entry_peer := Some 0%nat; entry_handshake := Some 0%nat;
              entry_keypair := None |} in
  let tr' := snd (BeginSymmetricSession 0%nat wall tr) in
  localIndex (handshakeOf tr 0%nat) = 9001
  /\ indexTable tr !! 9001 = Some e
  /\ IndexTable_Lookup 9001 (indexTable tr')
     = {| entry_peer := Some 0%nat; entry_handshake := None;
          entry_keypair := Some (keypairFree tr) |}
  /\ kp_localIndex (keypairAt tr' (keypairFree tr)) = 9001
  /\ localIndex (handshakeOf tr' 0%nat) = 0.
Proof.
  intros tr e tr'.
  assert (Hidx : localIndex (handshakeOf tr 0%nat) = 9001) by evaluated.
  assert (Hentry : indexTable tr !! localIndex (handshakeOf tr 0%nat) = Some e)
    by evaluated.
  assert (Halloc : keypairs_allocated tr 0%nat).
  { unfold keypairs_allocated. vm_compute. split_and!; [lia | exact I | exact I]. }
  assert (Hfresh : forall k,
    current (keypairsOf tr 0%nat) = Some k
    \/ previous (keypairsOf tr 0%nat) = Some k
    \/ next (keypairsOf tr 0%nat) = Some k ->
    kp_localIndex (keypairAt tr k) <> localIndex (handshakeOf tr 0%nat)).
  { intros k Hk.
    assert (Hk0 : k = 0%nat).
    { destruct Hk as [Hk | [Hk | Hk]]; vm_compute in Hk; congruence. }
    subst k. vm_compute. discriminate. }
  assert (Hok : fst (BeginSymmetricSession 0%nat wall tr) = None) by evaluated.
  pose proof (BeginSymmetricSession_remaps_index 0%nat wall tr e
                Hentry Halloc Hfresh Hok) as H.
  cbv zeta in H. rewrite Hidx in H.
  split; [exact Hidx |]. split; [rewrite <- Hidx; exact Hentry |]. exact H.
Defined.

(** X13 at work: the first initiation, from [alice] to [bob]. *)
Lemma initiation_round_trip_witness :
  let hA' := handshakeOf (snd alice1) 0%nat in
  let r := ConsumeMessageInitiation rate firstInitiation wall wall bob in
  let hB' := handshakeOf (snd r) 0%nat in
  fst alice1 = Ok firstInitiation
  /\ fst r = Some 0%nat
  /\ state hA' = handshakeInitiationCreated
  /\ state hB' = handshakeInitiationConsumed
  /\ hash hB' = hash hA'
  /\ chainKey hB' = chainKey hA'
  /\ remoteIndex hB' = localIndex hA'
  /\ remoteEphemeral hB' = PublicKey (localEphemeral hA')
  /\ lastTimestamp hB' = stamp.
Proof.
  intros hA' r hB'.
  assert (Hmsg : fst (CreateMessageInitiation 0%nat (ephA, None) stamp [4242]
                        alice) = Ok firstInitiation) by evaluated.
  split; [exact Hmsg |].
  refine (initiation_round_trip toy_dh_commutes toy_open_seal
            alice bob 0%nat 0%nat (ephA, None) stamp [4242] rate wall wall
            firstInitiation _ _ _ _ _ _ _ Hmsg); evaluated.
Defined.

(** X14 at work: the first response, from [bob] back to [alice]. *)
Lemma response_round_trip_witness :
  let A := snd alice1 in
  let B := snd bob1 in
  let hB' := handshakeOf (snd bob2) 0%nat in
  let r := ConsumeMessageResponse firstResponse A in
  let hA' := handshakeOf (snd r) 0%nat in
  fst bob2 = Ok firstResponse
  /\ fst r = Some 0%nat
  /\ state hB' = handshakeResponseCreated
  /\ state hA' = handshakeResponseConsumed
  /\ hash hA' = hash hB'
  /\ chainKey hA' = chainKey hB'
  /\ remoteIndex hA' = localIndex hB'.
Proof.
  intros A B hB' r hA'.
  assert (Hmsg : fst (CreateMessageResponse 0%nat (ephB, None) [777] B)
                 = Ok firstResponse) by evaluated.
  assert (Hpeer : entry_peer
            (IndexTable_Lookup (remoteIndex (handshakeOf B 0%nat))
               (indexTable A)) = Some 0%nat) by evaluated.
  split; [exact Hmsg |]. rewrite <- Hpeer.
  refine (response_round_trip toy_dh_commutes toy_open_seal
            A B 0%nat 0%nat (ephB, None) [777] firstResponse
            _ _ _ _ _ _ _ Hmsg); evaluated.
Defined.

(** X15 at work: [alice] and [bob] begin their sessions after the first
    handshake, at different times. *)
Lemma sessions_agree_witness :
  let A := snd alice2 in
  let B := snd bob2 in
  let rA := BeginSymmetricSession 0%nat wall A in
  let rB := BeginSymmetricSession 0%nat (wall + 7) B in
  let kA := keypairAt (snd rA) (keypairFree A) in
  let kB := keypairAt (snd rB) (keypairFree B) in
  fst rA = None /\ fst rB = None
  /\ current (keypairsOf (snd rA) 0%nat) = Some (keypairFree A)
  /\ next (keypairsOf (snd rB) 0%nat) = Some (keypairFree B)
  /\ send kA = receive kB
  /\ receive kA = send kB
  /\ isInitiator kA = true
  /\ isInitiator kB = false
  /\ kp_remoteIndex kA = kp_localIndex kB
  /\ kp_remoteIndex kB = kp_localIndex kA.
Proof.
  intros A B rA rB kA kB.
  assert (HallocA : keypairs_allocated A 0%nat).
  { unfold keypairs_allocated. vm_compute. split_and!; exact I. }
  assert (HallocB : keypairs_allocated B 0%nat).
  { unfold keypairs_allocated. vm_compute. split_and!; exact I. }
  refine (sessions_agree A B 0%nat 0%nat wall (wall + 7)
            _ _ _ _ _ HallocA HallocB); evaluated.
Defined.

(** X16 at work: [bob] sees the first initiation a second time, a minute
    later, and drops it. *)
Lemma ConsumeMessageInitiation_replay_witness :
  let tr' := snd (ConsumeMessageInitiation rate firstInitiation wall wall bob) in
  fst (ConsumeMessageInitiation rate firstInitiation wall wall bob)
  = Some 0%nat
  /\ ConsumeMessageInitiation rate firstInitiation
       (wall + 60000000000) (wall + 60000000000) tr' = (None, tr').
Proof.
  intros tr'.
  assert (Hok : fst (ConsumeMessageInitiation rate firstInitiation wall wall
                       bob) = Some 0%nat) by evaluated.
  split; [exact Hok |].
  exact (ConsumeMessageInitiation_replay rate firstInitiation wall wall
           (wall + 60000000000) (wall + 60000000000) bob 0%nat Hok).
Defined.

(** X17 at work: [alice] sees the first response a second time and drops
    it. *)
Lemma ConsumeMessageResponse_replay_witness :
  let tr' := snd (ConsumeMessageResponse firstResponse (snd alice1)) in
  fst (ConsumeMessageResponse firstResponse (snd alice1)) = Some 0%nat
  /\ ConsumeMessageResponse firstResponse tr' = (None, tr').
Proof.
  intros tr'.
  assert (Hok : fst (ConsumeMessageResponse firstResponse (snd alice1))
                = Some 0%nat) by evaluated.
  split; [exact Hok |].
  exact (ConsumeMessageResponse_replay firstResponse (snd alice1) 0%nat Hok).
Defined.

(** X18 at work: [alice] initiates again under index 5555 before [bob]'s
    answer to 4242 arrives; the answer is then dropped. *)
Lemma stale_response_rejected_witness :
  let tr := snd alice1 in
  let tr' := snd aliceRetry in
  fst aliceRetry = Ok retriedInitiation
  /\ mi_Sender retriedInitiation = 5555
  /\ mr_Receiver firstResponse = 4242
  /\ indexTable tr' !! localIndex (handshakeOf tr 0%nat) = None
  /\ ConsumeMessageResponse firstResponse tr' = (None, tr').
Proof.
  intros tr tr'.
  assert (Hmsg : fst (CreateMessageInitiation 0%nat (digest 32 29, None)
                        [64; 0; 0; 0; 101; 0; 0; 9; 0; 0; 0; 1] [5555] tr)
                 = Ok retriedInitiation) by evaluated.
  assert (Hnew : mi_Sender retriedInitiation
                 <> localIndex (handshakeOf tr 0%nat))
    by (vm_compute; discriminate).
  assert (Hold : mr_Receiver firstResponse = localIndex (handshakeOf tr 0%nat))
    by evaluated.
  split; [exact Hmsg |]. split; [evaluated |]. split; [evaluated |].
  exact (stale_response_rejected 0%nat (digest 32 29, None)
           [64; 0; 0; 0; 101; 0; 0; 9; 0; 0; 0; 1] [5555] tr
           retriedInitiation firstResponse Hmsg Hnew Hold).
Defined.

(** X19 at work: [bob] has answered the first initiation and cannot
    answer it again. *)
Lemma CreateMessageResponse_once_witness :
  let tr := snd bob1 in
  let tr' := snd (CreateMessageResponse 0%nat (ephB, None) [777] tr) in
  fst (CreateMessageResponse 0%nat (ephB, None) [777] tr) = Ok firstResponse
  /\ CreateMessageResponse 0%nat (digest 32 35, None) [778] tr'
     = (Err errInitiationNotConsumed, tr').
Proof.
  intros tr tr'.
  assert (Hmsg : fst (CreateMessageResponse 0%nat (ephB, None) [777] tr)
                 = Ok firstResponse) by evaluated.
  split; [exact Hmsg |].
  exact (CreateMessageResponse_once 0%nat (ephB, None) (digest 32 35, None)
           [777] [778] tr firstResponse Hmsg).
Defined.

(** X21 at work: the first initiation takes 148 bytes. *)
Lemma CreateMessageInitiation_size_witness :
  fst alice1 = Ok firstInitiation
  /\ 0 <= mi_Sender firstInitiation < 2 ^ 32
  /\ Z.of_nat (length (mi_Ephemeral firstInitiation)) = 32
  /\ Z.of_nat (length (mi_Static firstInitiation)) = 32 + 16
  /\ Z.of_nat (length (mi_Timestamp firstInitiation)) = 12 + 16
  /\ MessageInitiation_size firstInitiation = MessageInitiationSize.
Proof.
  assert (Hmsg : fst (CreateMessageInitiation 0%nat (ephA, None) stamp [4242]
                        alice) = Ok firstInitiation) by evaluated.
  split; [exact Hmsg |].
  refine (CreateMessageInitiation_size toy_PublicKey_length toy_Seal_length
            0%nat (ephA, None) stamp [4242] alice firstInitiation
            _ _ Hmsg); evaluated.
Defined.

(** X22 at work: the first response takes 92 bytes. *)
Lemma CreateMessageResponse_size_witness :
  fst bob2 = Ok firstResponse
  /\ 0 <= mr_Sender firstResponse < 2 ^ 32
  /\ Z.of_nat (length (mr_Ephemeral firstResponse)) = 32
  /\ Z.of_nat (length (mr_Empty firstResponse)) = 16
  /\ MessageResponse_size firstResponse = MessageResponseSize.
Proof.
  assert (Hmsg : fst (CreateMessageResponse 0%nat (ephB, None) [777]
                        (snd bob1)) = Ok firstResponse) by evaluated.
  split; [exact Hmsg |].
  exact (CreateMessageResponse_size toy_PublicKey_length toy_Seal_length
           0%nat (ephB, None) [777] (snd bob1) firstResponse Hmsg).
Defined.

End NoiseLaws.
